(** * logup: upload a log file to a per-bug Drive folder and notify Bugzilla

    A shallow embedding of [index.js].  The server code is a chain of calls
    to services it does not control (Bugzilla over [fetch], Google Drive
    through the [googleapis] client and raw [https.request]).  The program
    is embedded as a tree of such calls: every call node names the request
    that is issued and continues with whatever the outside world answers.
    Running a tree against a handler (any state machine answering the
    calls) gives the outcome together with the list of calls that were
    made, so that statements of the form "no storage call is issued" are
    statements about that list, for every possible environment. *)

From Stdlib Require Import String Ascii List ZArith Bool Lia DecimalString.
Import ListNotations.
Open Scope string_scope.
Open Scope Z_scope.

Set Implicit Arguments.

(** ** JavaScript values the code handles *)

(** A thrown value: [new Error(msg)] or an error raised by a library. *)
Record Exn : Type := mkExn { exn_name : string; exn_message : string }.

(** [new Error(message)] *)
Definition Error (message : string) : Exn := mkExn "Error" message.

(** Result of an operation that either produces a value or throws; also
    the settled state of a promise (fulfilled / rejected). *)
Inductive Completion (A : Type) : Type :=
| Normal (a : A)
| Abrupt (e : Exn).
Arguments Normal {A} a.
Arguments Abrupt {A} e.

(** Plain data objects that are serialised to or parsed from JSON. *)
#[local] Unset Elimination Schemes.
Inductive Json : Type :=
| JNull
| JBool (b : bool)
| JNum (z : Z)
| JStr (s : string)
| JArr (l : list Json)
| JObj (l : list (string * Json)).
#[local] Set Elimination Schemes.

(** A string-or-[undefined] value interpolated in a template literal or
    passed to [concat]: [undefined] prints as the text "undefined". *)
Definition tpl (v : option string) : string :=
  match v with
  | Some s => s
  | None => "undefined"
  end.

(** Number to string conversion of a template literal. *)
Definition show_Z (z : Z) : string := NilZero.string_of_int (Z.to_int z).
Definition show_nat (n : nat) : string := NilZero.string_of_uint (Nat.to_uint n).

(** The line feed written [\n] in the source. *)
Definition LF : string := String (ascii_of_nat 10) EmptyString.

(** ** Requests and answers of the outside world *)

(** Entry of [response.data.files] ([fields: 'files(id, name)']). *)
Record File : Type := mkFile { file_id : string; file_name : string }.

(** Argument of [drive.files.list]. *)
Record ListParams : Type := mkListParams {
  lp_driveId : string;
  lp_includeItemsFromAllDrives : bool;
  lp_supportsAllDrives : bool;
  lp_corpora : string;
  lp_q : string;
  lp_fields : string
}.

(** [folderMetadata] *)
Record FolderMetadata : Type := mkFolderMetadata {
  fm_name : string;
  fm_mimeType : string;
  fm_parents : list string
}.

(** Argument of [drive.files.create]. *)
Record CreateParams : Type := mkCreateParams {
  cp_supportsTeamDrives : bool;
  cp_driveId : string;
  cp_resource : FolderMetadata;
  cp_fields : string
}.

(** Second argument of [fetch]; [fi_method = None] when the field is not
    given (a GET). *)
Record FetchInit : Type := mkFetchInit {
  fi_method : option string;
  fi_headers : list (string * string);
  fi_body : option string
}.

(** What the code reads of a [fetch] response; [ok] is derived from the
    status as the Fetch standard defines it. *)
Record FetchResponse : Type := mkFetchResponse { status : Z }.

Definition ok (response : FetchResponse) : bool :=
  (200 <=? status response) && (status response <=? 299).

(** [options] of [https.request]. *)
Record RequestOptions : Type := mkRequestOptions {
  ro_method : string;
  ro_hostname : string;
  ro_path : string;
  ro_headers : list (string * Json)
}.

(** What is written to the request: [req.write(str); req.end()] or a
    stream of bytes piped into it. *)
Inductive Payload : Type :=
| Text (s : string)
| Bytes (b : list Byte.byte).

(** The [res] passed to the callback of [https.request], with the chunks
    its ['data'] events deliver before ['end']. *)
Record IncomingMessage : Type := mkIncomingMessage {
  statusCode : Z;
  statusMessage : string;
  headers_location : option string;
  chunks : list string
}.

(** The parts of a [URL] object the code reads. *)
Record URL : Type := mkURL {
  url_hostname : string;
  url_pathname : string;
  url_search : string
}.

(** Calls that leave the process. *)
Inductive Call : Type :=
| fetch (url : string) (init : FetchInit)
| drive_files_list (params : ListParams)
| drive_files_create (params : CreateParams)
| auth_getClient
| client_getAccessToken
| https_request (options : RequestOptions) (payload : Payload)
| console_log (msg : string)
| console_error (label : string) (error : Exn).

(** What each call hands back to the program. *)
Definition Answer (c : Call) : Type :=
  match c with
  | fetch _ _ => Completion FetchResponse
  | drive_files_list _ => Completion (list File)
  | drive_files_create _ => Completion string
  | auth_getClient => Completion unit
  | client_getAccessToken => Completion (option string)
  | https_request _ _ => Completion IncomingMessage
  | console_log _ => unit
  | console_error _ _ => unit
  end.

(** One call together with the answer it got. *)
Inductive Event : Type :=
| Ev (c : Call) (a : Answer c).

(** ** Programs *)

(** [Throw] is an exception or a rejected promise, which an enclosing
    [try]/[catch] around an [await] receives.  [Uncaught] is an exception
    raised inside an event-emitter callback, outside every promise and
    every [try]: nothing receives it. *)
Inductive Prog (A : Type) : Type :=
| Ret (a : A)
| Throw (e : Exn)
| Uncaught (e : Exn)
| Do (c : Call) (k : Answer c -> Prog A).
Arguments Ret {A} a.
Arguments Throw {A} e.
Arguments Uncaught {A} e.
Arguments Do {A} c k.

Fixpoint bind {A B : Type} (p : Prog A) (f : A -> Prog B) : Prog B :=
  match p with
  | Ret a => f a
  | Throw e => Throw e
  | Uncaught e => Uncaught e
  | Do c k => Do c (fun a => bind (k a) f)
  end.

(** [try { p } catch (error) { h error }] *)
Fixpoint try_catch {A : Type} (p : Prog A) (h : Exn -> Prog A) : Prog A :=
  match p with
  | Ret a => Ret a
  | Throw e => h e
  | Uncaught e => Uncaught e
  | Do c k => Do c (fun a => try_catch (k a) h)
  end.

(** A call whose answer the program inspects itself: the callbacks of
    [.then(...).catch(...)] or of [https.request]. *)
Definition perform (c : Call) : Prog (Answer c) := Do c (fun a => Ret a).

(** [await] of a promise: its value, or its rejection thrown. *)
Definition await {A : Type} (p : Prog (Completion A)) : Prog A :=
  bind p (fun settled =>
            match settled with
            | Normal v => Ret v
            | Abrupt e => Throw e
            end).

Declare Scope prog_scope.
Delimit Scope prog_scope with prog.
Notation "x <- p ;; q" := (bind p (fun x => q))
  (at level 100, p at next level, right associativity) : prog_scope.
Notation "p ;; q" := (bind p (fun _ => q))
  (at level 100, right associativity) : prog_scope.
Open Scope prog_scope.

(** ** Running a program against an environment *)

Inductive Outcome (A : Type) : Type :=
| Returned (a : A)
| Threw (e : Exn)
| Crashed (e : Exn).
Arguments Returned {A} a.
Arguments Threw {A} e.
Arguments Crashed {A} e.

Section Run.
Variable St : Type.
Variable handle : forall c : Call, St -> Answer c * St.

Fixpoint run {A : Type} (p : Prog A) (s : St) : Outcome A * St * list Event :=
  match p with
  | Ret a => (Returned a, s, [])
  | Throw e => (Threw e, s, [])
  | Uncaught e => (Crashed e, s, [])
  | Do c k =>
      let (a, s1) := handle c s in
      let '(o, s2, tr) := run (k a) s1 in
      (o, s2, Ev c a :: tr)
  end.
End Run.

(** ** The server code *)

Section Server.
(** [process.env.MOZ_LOGUP_DRIVE_ID] and
    [process.env.MOZ_LOGUP_BUGZILLA_API_KEY], read once at start-up. *)
Variable DRIVE_ID : string.
Variable BUGZILLA_API_KEY : string.

(** Built-ins of the platform: [JSON.stringify], [JSON.parse] (throws a
    [SyntaxError] on malformed text) and the [URL] constructor (throws a
    [TypeError] on an invalid URL). *)
Variable JSON_stringify : Json -> string.
Variable JSON_parse : string -> Completion Json.
Variable new_URL : string -> Completion URL.

(** [text.length]: the number of UTF-16 code units of a text.  It is not
    the number of its bytes when the text has characters outside ASCII. *)
Variable utf16_length : string -> Z.

(** The [for (let file of files)] loop of [getFolderId]: [Some id] when
    the loop body returns, [None] when the loop runs to its end. *)
Fixpoint for_file_of (files : list File) (name : string) : option string :=
  match files with
  | [] => None
  | file :: rest =>
      if file_name file =? name then Some (file_id file)
      else for_file_of rest name
  end%string.

Definition getFolderId (name : string) : Prog string :=
  response <- await (perform (drive_files_list
                {| lp_driveId := DRIVE_ID;
                   lp_includeItemsFromAllDrives := true;
                   lp_supportsAllDrives := true;
                   lp_corpora := "drive";
                   lp_q := "mimeType='application/vnd.google-apps.folder'";
                   lp_fields := "files(id, name)" |})) ;;
  let files := response in
  perform (console_log ("Folder count: " ++ show_nat (length files))) ;;
  match (if negb (Nat.eqb (length files) 0) then for_file_of files name else None) with
  | Some id => Ret id
  | None =>
      perform (console_log "No folder by that name.") ;;
      Ret ""
  end.

Definition createFolder (name : string) : Prog string :=
  folderId <- getFolderId name ;;
  if negb (folderId =? "")%string then
    perform (console_log ("Folder already exists: " ++ name)) ;;
    Ret folderId
  else
    perform (console_log ("Creating folder: " ++ name)) ;;
    let folderMetadata :=
      {| fm_name := name;
         fm_mimeType := "application/vnd.google-apps.folder";
         fm_parents := [DRIVE_ID] |} in
    folder <- await (perform (drive_files_create
                {| cp_supportsTeamDrives := true;
                   cp_driveId := DRIVE_ID;
                   cp_resource := folderMetadata;
                   cp_fields := "id" |})) ;;
    Ret folder.

(** The text of the comment. *)
Definition comment_data : Json :=
  JObj [("comment", JStr "A log has been successfully uploaded to the team's storage")].

Definition createBugzillaComment (bugId : option string) : Prog bool :=
  let url := "https://bugzilla.mozilla.org/rest/bug/" ++ tpl bugId ++ "/comment" in
  let data := comment_data in
  let headers := [("X-BUGZILLA-API-KEY", BUGZILLA_API_KEY)] in
  settled <- perform (fetch url {| fi_method := Some "POST";
                                   fi_headers := headers;
                                   fi_body := Some (JSON_stringify data) |}) ;;
  match settled with
  | Normal response => Ret (status response =? 201)
  | Abrupt error =>
      perform (console_error "Error:" error) ;;
      Ret false
  end.

(** The object [checkBugIdExists] resolves to. *)
Record MaybeError : Type := mkMaybeError {
  error : bool;
  message : option string
}.

Definition checkBugIdExists (bugId : option string) : Prog MaybeError :=
  let url := "https://bugzilla.mozilla.org/rest/bug/" ++ tpl bugId in
  let headers := [("X-BUGZILLA-API-KEY", BUGZILLA_API_KEY)] in
  settled <- perform (fetch url {| fi_method := None;
                                   fi_headers := headers;
                                   fi_body := None |}) ;;
  match settled with
  | Normal response =>
      if negb (ok response) then
        Ret {| error := true; message := Some "Bug number does not appear to exist" |}
      else
        Ret {| error := false; message := None |}
  | Abrupt _ =>
      Ret {| error := true; message := Some "Unknown" |}
  end.

(** [data += chunk] for every ['data'] event. *)
Definition collect (cs : list string) : string :=
  fold_left (fun data chunk => data ++ chunk) cs "".

Definition is_2xx (code : Z) : bool := (200 <=? code) && (code <? 300).

(** [auth], its first argument in the source, is the module-level client
    behind [auth_getClient]. *)
Definition createResumableUpload (fileMetadata : Json) : Prog (option string) :=
  await (perform auth_getClient) ;;
  tokenResponse <- await (perform client_getAccessToken) ;;
  let accessToken := tokenResponse in
  let metadataStr := JSON_stringify fileMetadata in
  let options :=
    {| ro_method := "POST";
       ro_hostname := "www.googleapis.com";
       ro_path := "/upload/drive/v3/files?uploadType=resumable&supportsTeamDrives=true&driveId="
                  ++ DRIVE_ID;
       ro_headers := [("Content-Type", JStr "application/json");
                      ("Content-Length", JNum (utf16_length metadataStr));
                      ("Authorization", JStr ("Bearer " ++ tpl accessToken))] |} in
  settled <- perform (https_request options (Text metadataStr)) ;;
  match settled with
  | Normal res =>
      if is_2xx (statusCode res) then
        Ret (headers_location res)
      else
        let errorData := collect (chunks res) in
        Throw (Error ("Failed to create resumable upload session: "
                      ++ show_Z (statusCode res) ++ " " ++ statusMessage res
                      ++ " " ++ errorData))
  | Abrupt error => Throw error
  end.

Definition uploadFile (uploadUrl : option string) (fileSize : Z)
    (fileMimeType : string) (bufferStream : list Byte.byte) : Prog Json :=
  match new_URL (tpl uploadUrl) with
  | Abrupt e => Throw e
  | Normal parsedUrl =>
      let options :=
        {| ro_method := "PUT";
           ro_hostname := url_hostname parsedUrl;
           ro_path := url_pathname parsedUrl ++ url_search parsedUrl;
           ro_headers := [("Content-Length", JNum fileSize);
                          ("Content-Type", JStr fileMimeType)] |} in
      settled <- perform (https_request options (Bytes bufferStream)) ;;
      match settled with
      | Normal res =>
          let data := collect (chunks res) in
          if is_2xx (statusCode res) then
            match JSON_parse data with
            | Normal descriptor => Ret descriptor
            | Abrupt e => Uncaught e
            end
          else
            Throw (Error ("Failed to upload file: "
                          ++ show_Z (statusCode res) ++ " " ++ statusMessage res))
      | Abrupt error => Throw error
      end
  end.

(** [req.file] as multer's memory storage fills it in. *)
Record UploadedFile : Type := mkUploadedFile {
  originalname : string;
  mimetype : string;
  size : Z;
  buffer : list Byte.byte
}.

(** The request of [POST /upload]: [req.file] and [req.body.bugid]. *)
Record Request : Type := mkRequest {
  file : option UploadedFile;
  bugid : option string
}.

(** What [res.status(...).send(...)] sends; [res.send] alone leaves the
    status at Express's default, 200. *)
Record HttpResponse : Type := mkHttpResponse {
  res_status : Z;
  res_body : string
}.

Definition send (body : string) : HttpResponse := mkHttpResponse 200 body.
Definition status_send (code : Z) (body : string) : HttpResponse :=
  mkHttpResponse code body.

(** Handler of [app.post('/upload', ...)]. *)
Definition upload (req : Request) : Prog HttpResponse :=
  match file req with
  | Some req_file =>
      try_catch
        (maybeError <- checkBugIdExists (bugid req) ;;
         if error maybeError then
           let errString := "Failed to upload file: " ++ tpl (message maybeError) in
           perform (console_log errString) ;;
           Ret (send errString)
         else
           folder <- createFolder (tpl (bugid req)) ;;
           let fileMetadata :=
             JObj [("name", JStr (originalname req_file));
                   ("parents", JArr [JStr folder])] in
           let userFeedback := "" in
           uploadUrl <- createResumableUpload fileMetadata ;;
           uploadFile uploadUrl (size req_file) (mimetype req_file) (buffer req_file) ;;
           let userFeedback := userFeedback ++ "File uploaded successfully." ++ LF ++ "<br>" in
           commented <- createBugzillaComment (bugid req) ;;
           let userFeedback :=
             if commented then userFeedback ++ "Added comment to bugzilla"
             else userFeedback ++ "Failed to comment to bugzilla" in
           perform (console_log userFeedback) ;;
           Ret (send userFeedback))
        (fun error =>
           perform (console_error "Error uploading file:" error) ;;
           Ret (status_send 500 "Error uploading file"))
  | None => Ret (status_send 400 "No file uploaded")
  end.
End Server.

Arguments show_Z : simpl never.
Arguments show_nat : simpl never.
Arguments tpl : simpl never.
Arguments ok : simpl never.
Arguments is_2xx : simpl never.
Arguments collect : simpl never.
Arguments for_file_of : simpl never.

(** ** Reading a trace *)

(** The events of one kind, in the order they happened, each with the
    arguments of the call and its answer. *)
Fixpoint pick {X : Type} (f : Event -> option X) (tr : list Event) : list X :=
  match tr with
  | [] => []
  | e :: rest =>
      match f e with
      | Some x => x :: pick f rest
      | None => pick f rest
      end
  end.

Definition as_fetch (e : Event) : option (string * FetchInit * Completion FetchResponse) :=
  match e with
  | Ev c a =>
      match c as c0 return Answer c0 -> option (string * FetchInit * Completion FetchResponse) with
      | fetch url init => fun a0 => Some (url, init, a0)
      | _ => fun _ => None
      end a
  end.

Definition as_list (e : Event) : option (ListParams * Completion (list File)) :=
  match e with
  | Ev c a =>
      match c as c0 return Answer c0 -> option (ListParams * Completion (list File)) with
      | drive_files_list params => fun a0 => Some (params, a0)
      | _ => fun _ => None
      end a
  end.

Definition as_create (e : Event) : option (CreateParams * Completion string) :=
  match e with
  | Ev c a =>
      match c as c0 return Answer c0 -> option (CreateParams * Completion string) with
      | drive_files_create params => fun a0 => Some (params, a0)
      | _ => fun _ => None
      end a
  end.

Definition as_request (e : Event)
  : option (RequestOptions * Payload * Completion IncomingMessage) :=
  match e with
  | Ev c a =>
      match c as c0 return
            Answer c0 -> option (RequestOptions * Payload * Completion IncomingMessage) with
      | https_request options payload => fun a0 => Some (options, payload, a0)
      | _ => fun _ => None
      end a
  end.

Definition fetches := pick as_fetch.
Definition lists := pick as_list.
Definition creates := pick as_create.
Definition requests := pick as_request.

Definition call_of (e : Event) : Call := match e with Ev c _ => c end.

(** Calls that reach the storage side: the Drive client, its credentials
    and the raw upload requests. *)
Definition storage_call (c : Call) : bool :=
  match c with
  | drive_files_list _ | drive_files_create _ => true
  | auth_getClient | client_getAccessToken => true
  | https_request _ _ => true
  | fetch _ _ | console_log _ | console_error _ _ => false
  end.

Definition storage_calls (tr : list Event) : list Event :=
  filter (fun e => storage_call (call_of e)) tr.

(** The existence probe is the [fetch] without a method; the comment is
    the one with method POST. *)
Definition is_probe (x : string * FetchInit * Completion FetchResponse) : bool :=
  match fi_method (snd (fst x)) with
  | None => true
  | Some _ => false
  end.

Definition is_comment (x : string * FetchInit * Completion FetchResponse) : bool :=
  match fi_method (snd (fst x)) with
  | Some m => (m =? "POST")%string
  | None => false
  end.

(** The session negotiation is the POST, the transfer of the bytes the PUT. *)
Definition is_session (x : RequestOptions * Payload * Completion IncomingMessage) : bool :=
  (ro_method (fst (fst x)) =? "POST")%string.

Definition is_transfer (x : RequestOptions * Payload * Completion IncomingMessage) : bool :=
  (ro_method (fst (fst x)) =? "PUT")%string.

(** The tracker did not confirm the bug: a response that is not [ok], or
    no response at all. *)
Definition not_confirmed (a : Completion FetchResponse) : bool :=
  match a with
  | Normal response => negb (ok response)
  | Abrupt _ => true
  end.

(** A response arrived and its status is outside 200..299. *)
Definition non_2xx (a : Completion IncomingMessage) : bool :=
  match a with
  | Normal res => negb (is_2xx (statusCode res))
  | Abrupt _ => false
  end.

(** [sub] occurs in [s]. *)
Definition occurs_in (sub s : string) : bool :=
  match index 0 sub s with
  | Some _ => true
  | None => false
  end.

(** ** What a run of the handler shows

    The conditions the statements below speak about, read off a trace. *)

Definition is_abrupt {A : Type} (a : Completion A) : bool :=
  match a with
  | Normal _ => false
  | Abrupt _ => true
  end.

(** A storage-side promise was rejected, or a request emitted ['error']. *)
Definition rejected (e : Event) : bool :=
  match e with
  | Ev c a =>
      match c as c0 return Answer c0 -> bool with
      | drive_files_list _ => fun a0 => is_abrupt a0
      | drive_files_create _ => fun a0 => is_abrupt a0
      | auth_getClient => fun a0 => is_abrupt a0
      | client_getAccessToken => fun a0 => is_abrupt a0
      | https_request _ _ => fun a0 => is_abrupt a0
      | _ => fun _ => false
      end a
  end.

(** The tracker was asked about the bug and did not confirm it. *)
Definition unconfirmed (tr : list Event) : bool :=
  existsb (fun x => is_probe x && not_confirmed (snd x)) (fetches tr).

(** The comment went through: status 201 and nothing else. *)
Definition posted (a : Completion FetchResponse) : bool :=
  match a with
  | Normal response => status response =? 201
  | Abrupt _ => false
  end.

(** What [getFolderId] hands to [createFolder] for a listing. *)
Definition found (files : list File) (name : string) : string :=
  match for_file_of files name with
  | Some id => id
  | None => ""
  end.

(** An awaited promise seen from the caller. *)
Definition settle {A : Type} (a : Completion A) : Outcome A :=
  match a with
  | Normal v => Returned v
  | Abrupt e => Threw e
  end.

(** Every folder of a drive has an id; [folders_of] reads the folders off
    the state of the environment. *)
Definition identified {St : Type} (folders_of : St -> list File) (s : St) : Prop :=
  forall g, In g (folders_of s) -> file_id g <> "".

(** The session request was answered 2xx. *)
Definition granted (x : RequestOptions * Payload * Completion IncomingMessage) : bool :=
  is_session x && negb (is_transfer x) && negb (is_abrupt (snd x)) && negb (non_2xx (snd x)).

(** At most one session request, and a transfer only after a granted
    session. *)
Inductive requests_order
  : list (RequestOptions * Payload * Completion IncomingMessage) -> Prop :=
| no_request : requests_order []
| session_only x :
    is_session x = true -> is_transfer x = false -> requests_order [x]
| session_then_transfer x y :
    granted x = true -> is_transfer y = true -> is_session y = false ->
    requests_order [x; y].

(** The arguments [getFolderId] and [createFolder] pass to the Drive client. *)
Definition list_params (DRIVE_ID : string) : ListParams :=
  {| lp_driveId := DRIVE_ID;
     lp_includeItemsFromAllDrives := true;
     lp_supportsAllDrives := true;
     lp_corpora := "drive";
     lp_q := "mimeType='application/vnd.google-apps.folder'";
     lp_fields := "files(id, name)" |}.

Definition create_params (DRIVE_ID name : string) : CreateParams :=
  {| cp_supportsTeamDrives := true;
     cp_driveId := DRIVE_ID;
     cp_resource :=
       {| fm_name := name;
          fm_mimeType := "application/vnd.google-apps.folder";
          fm_parents := [DRIVE_ID] |};
     cp_fields := "id" |}.

Section Verdicts.
Variable JSON_stringify : Json -> string.
Variable JSON_parse : string -> Completion Json.
Variable new_URL : string -> Completion URL.

(** The session was granted but its [location] is no URL. *)
Definition bad_location (x : RequestOptions * Payload * Completion IncomingMessage) : bool :=
  is_session x &&
  match snd x with
  | Normal res => is_2xx (statusCode res) && is_abrupt (new_URL (tpl (headers_location res)))
  | Abrupt _ => false
  end.

(** Folder resolution, session initiation or byte streaming failed: a
    storage-side call was rejected, a request was answered outside 2xx, or
    the session URL could not be used. *)
Definition fatal (tr : list Event) : bool :=
  existsb rejected tr
  || existsb (fun x => non_2xx (snd x)) (requests tr)
  || existsb bad_location (requests tr).

(** The bytes were accepted and the answer read as a file descriptor. *)
Definition stored (x : RequestOptions * Payload * Completion IncomingMessage) : bool :=
  is_transfer x &&
  match snd x with
  | Normal res =>
      is_2xx (statusCode res) && negb (is_abrupt (JSON_parse (collect (chunks res))))
  | Abrupt _ => false
  end.

Definition uploaded (tr : list Event) : bool := existsb stored (requests tr).

(** The bytes were accepted but the answer is not JSON. *)
Definition garbled (x : RequestOptions * Payload * Completion IncomingMessage) : bool :=
  is_transfer x &&
  match snd x with
  | Normal res =>
      is_2xx (statusCode res) && is_abrupt (JSON_parse (collect (chunks res)))
  | Abrupt _ => false
  end.

Definition reason (a : Completion FetchResponse) : string :=
  match a with
  | Normal _ => "Bug number does not appear to exist"
  | Abrupt _ => "Unknown"
  end.

Definition feedback (commented : bool) : string :=
  "File uploaded successfully." ++ LF ++ "<br>"
  ++ (if commented then "Added comment to bugzilla" else "Failed to comment to bugzilla").

(** The ways a run of the handler can end. *)
Inductive ends (req : Request) (o : Outcome HttpResponse) (tr : list Event) : Prop :=
| ends_no_file :
    file req = None ->
    tr = [] ->
    o = Returned (status_send 400 "No file uploaded") ->
    ends req o tr
| ends_ticket probe :
    file req <> None ->
    fetches tr = [probe] -> is_probe probe = true -> not_confirmed (snd probe) = true ->
    storage_calls tr = [] -> requests tr = [] ->
    fatal tr = false -> uploaded tr = false ->
    o = Returned (send ("Failed to upload file: " ++ reason (snd probe))) ->
    ends req o tr
| ends_fatal probe :
    file req <> None ->
    fetches tr = [probe] -> is_probe probe = true -> not_confirmed (snd probe) = false ->
    requests_order (requests tr) ->
    fatal tr = true -> uploaded tr = false ->
    o = Returned (status_send 500 "Error uploading file") ->
    ends req o tr
| ends_crash probe e :
    file req <> None ->
    fetches tr = [probe] -> is_probe probe = true -> not_confirmed (snd probe) = false ->
    requests_order (requests tr) ->
    fatal tr = false -> uploaded tr = false ->
    existsb garbled (requests tr) = true ->
    o = Crashed e ->
    ends req o tr
| ends_success probe comment :
    file req <> None ->
    fetches tr = [probe; comment] ->
    is_probe probe = true -> not_confirmed (snd probe) = false ->
    is_comment comment = true -> is_probe comment = false ->
    fi_body (snd (fst comment)) = Some (JSON_stringify comment_data) ->
    requests_order (requests tr) ->
    fatal tr = false -> uploaded tr = true ->
    o = Returned (send (feedback (posted (snd comment)))) ->
    ends req o tr.
End Verdicts.

(** ** A reference environment

    A small Bugzilla and Drive to run the server against: the tracker
    knows a list of bugs, the Drive keeps the folders of the shared drive
    in the order it lists them and numbers the ones it creates, and the
    two upload requests are answered as the world prescribes. *)

Record World : Type := mkWorld {
  w_bugs : list string;
  w_tracker_up : bool;
  w_comment_status : Z;
  w_folders : list File;
  w_created : nat;
  w_session : Completion IncomingMessage;
  w_transfer : Completion IncomingMessage
}.

Definition bug_url (b : string) : string :=
  "https://bugzilla.mozilla.org/rest/bug/" ++ b.

Definition world_fetch (url : string) (init : FetchInit) (w : World)
  : Completion FetchResponse :=
  if w_tracker_up w then
    match fi_method init with
    | None =>
        if existsb (fun b => (bug_url b =? url)%string) (w_bugs w)
        then Normal (mkFetchResponse 200)
        else Normal (mkFetchResponse 404)
    | Some _ => Normal (mkFetchResponse (w_comment_status w))
    end
  else Abrupt (mkExn "TypeError" "fetch failed").

Definition world_create (params : CreateParams) (w : World) : string * World :=
  let id := "folder-" ++ show_nat (w_created w) in
  (id,
   mkWorld (w_bugs w) (w_tracker_up w) (w_comment_status w)
           (w_folders w ++ [mkFile id (fm_name (cp_resource params))])
           (S (w_created w)) (w_session w) (w_transfer w)).

Definition world_handle (c : Call) : World -> Answer c * World :=
  match c as c0 return World -> Answer c0 * World with
  | fetch url init => fun w => (world_fetch url init w, w)
  | drive_files_list _ => fun w => (Normal (w_folders w), w)
  | drive_files_create params =>
      fun w => let (id, w') := world_create params w in (Normal id, w')
  | auth_getClient => fun w => (Normal tt, w)
  | client_getAccessToken => fun w => (Normal (Some "ya29.sample"), w)
  | https_request options _ =>
      fun w => if (ro_method options =? "POST")%string
               then (w_session w, w) else (w_transfer w, w)
  | console_log _ => fun w => (tt, w)
  | console_error _ _ => fun w => (tt, w)
  end.

(** Stand-ins for the platform's built-ins, enough for the sample data. *)
Definition DQ : string := String (ascii_of_nat 34) EmptyString.

Fixpoint sample_stringify (j : Json) : string :=
  match j with
  | JNull => "null"
  | JBool b => if b then "true" else "false"
  | JNum z => show_Z z
  | JStr s => DQ ++ s ++ DQ
  | JArr l => "[" ++ String.concat "," (map sample_stringify l) ++ "]"
  | JObj l =>
      "{" ++ String.concat ","
               (map (fun kv : string * Json => let (k, v) := kv in
                               DQ ++ k ++ DQ ++ ":" ++ sample_stringify v) l)
          ++ "}"
  end.

Definition sample_descriptor : Json := JObj [("id", JStr "1AbCdEfG")].

Definition sample_parse (text : string) : Completion Json :=
  if (text =? sample_stringify sample_descriptor)%string
  then Normal sample_descriptor
  else Abrupt (mkExn "SyntaxError" "Unexpected token in JSON").

(** [s] cut before the first occurrence of [c]. *)
Fixpoint cut_at (c : ascii) (s : string) : string * string :=
  match s with
  | EmptyString => (EmptyString, EmptyString)
  | String a rest =>
      if Ascii.eqb a c then (EmptyString, s)
      else let (before, from) := cut_at c rest in (String a before, from)
  end.

Definition sample_URL (s : string) : Completion URL :=
  if prefix "https://" s then
    let rest := substring 8 (String.length s - 8) s in
    let (host, tail) := cut_at "/" rest in
    let (path, search) := cut_at "?" tail in
    Normal (mkURL host path search)
  else Abrupt (mkExn "TypeError" "Invalid URL").

Definition sample_DRIVE_ID : string := "0AAbbCCddEE".
Definition sample_KEY : string := "api-key".

(** [text.length] for the texts of the sample runs, which are ASCII: one
    unit for each character. *)
Definition sample_length (text : string) : Z := Z.of_nat (String.length text).

Definition sample_upload : Request -> Prog HttpResponse :=
  upload sample_DRIVE_ID sample_KEY sample_stringify sample_parse sample_URL sample_length.

Definition sample_session_url : string :=
  "https://www.googleapis.com/upload/drive/v3/files?uploadType=resumable&upload_id=xyz".

(** Bug 12345 exists, the drive is empty, every service answers well. *)
Definition sample_world : World :=
  {| w_bugs := ["12345"];
     w_tracker_up := true;
     w_comment_status := 201;
     w_folders := [];
     w_created := 0;
     w_session := Normal (mkIncomingMessage 200 "OK" (Some sample_session_url) []);
     w_transfer := Normal (mkIncomingMessage 200 "OK" None
                             ["{"; DQ ++ "id" ++ DQ ++ ":"; DQ ++ "1AbCdEfG" ++ DQ ++ "}"]) |}.

(** [report.log], 1024 bytes of text. *)
Definition sample_file : UploadedFile :=
  {| originalname := "report.log";
     mimetype := "text/plain";
     size := 1024;
     buffer := repeat Byte.x61 1024 |}.

Definition sample_request : Request :=
  {| file := Some sample_file; bugid := Some "12345" |}.

(** A bug the tracker does not know. *)
Definition unknown_request : Request :=
  {| file := Some sample_file; bugid := Some "99999" |}.

(** The answer of a Drive that refuses: 403 with a two-chunk body. *)
Definition refusal : IncomingMessage :=
  mkIncomingMessage 403 "Forbidden" None ["quota"; " exceeded"].

(** The session request is refused. *)
Definition refusing_world : World :=
  mkWorld ["12345"] true 201 [] 0 (Normal refusal) (w_transfer sample_world).

(** The session is granted, the bytes are refused. *)
Definition rejecting_world : World :=
  mkWorld ["12345"] true 201 [] 0 (w_session sample_world) (Normal refusal).

(** Everything works except the comment, answered 403. *)
Definition mute_world : World :=
  mkWorld ["12345"] true 403 [] 0 (w_session sample_world) (w_transfer sample_world).

(** The drive already has folders, one of them for bug 12345. *)
Definition used_world : World :=
  mkWorld ["12345"] true 201
          [mkFile "1xYz" "12344"; mkFile "1qRs" "12345"; mkFile "1tUv" "12345"] 0
          (w_session sample_world) (w_transfer sample_world).

(** The run of a program in the reference environment. *)
Definition outcome_of {A St : Type} (r : Outcome A * St * list Event) : Outcome A :=
  fst (fst r).
Definition state_of {A St : Type} (r : Outcome A * St * list Event) : St :=
  snd (fst r).
Definition trace_of {A St : Type} (r : Outcome A * St * list Event) : list Event :=
  snd r.

(** A request without a file. *)
Definition empty_request : Request :=
  {| file := None; bugid := Some "12345" |}.

(** The probe and the comment as the handler sends them for a bug. *)
Definition probe_init : FetchInit :=
  {| fi_method := None;
     fi_headers := [("X-BUGZILLA-API-KEY", sample_KEY)];
     fi_body := None |}.

Definition comment_init : FetchInit :=
  {| fi_method := Some "POST";
     fi_headers := [("X-BUGZILLA-API-KEY", sample_KEY)];
     fi_body := Some (sample_stringify comment_data) |}.

(** The metadata of [report.log] in folder [folder-0]. *)
Definition sample_metadata : Json :=
  JObj [("name", JStr "report.log"); ("parents", JArr [JStr "folder-0"])].

(** The two upload requests as the handler sends them for the sample. *)
Definition session_options : RequestOptions :=
  {| ro_method := "POST";
     ro_hostname := "www.googleapis.com";
     ro_path := "/upload/drive/v3/files?uploadType=resumable&supportsTeamDrives=true&driveId="
                ++ sample_DRIVE_ID;
     ro_headers := [("Content-Type", JStr "application/json");
                    ("Content-Length",
                     JNum (sample_length (sample_stringify sample_metadata)));
                    ("Authorization", JStr "Bearer ya29.sample")] |}.

Definition transfer_options : RequestOptions :=
  {| ro_method := "PUT";
     ro_hostname := "www.googleapis.com";
     ro_path := "/upload/drive/v3/files" ++ "?uploadType=resumable&upload_id=xyz";
     ro_headers := [("Content-Length", JNum 1024);
                    ("Content-Type", JStr "text/plain")] |}.

(** The answer of the Drive to the transfer in the sample world. *)
Definition sample_stored : IncomingMessage :=
  mkIncomingMessage 200 "OK" None
    ["{"; DQ ++ "id" ++ DQ ++ ":"; DQ ++ "1AbCdEfG" ++ DQ ++ "}"].

(** ** Start-up

    The statements of the module that run once, before any request: the
    key file is read and parsed, the two settings are checked, and the
    server starts to listen.  [readFileSync], [process_env] and
    [app_listen] stand for the file system, the environment of the
    process and its network; an exception here is outside every [try] and
    ends the process. *)

Section Startup.
Variable JSON_parse : string -> Completion Json.
Variable readFileSync : string -> Completion string.
Variable process_env : string -> option string.

Definition GCLOUD_KEYFILEPATH : string := "key.json".

(** [!v] for a value that is a string or [undefined]. *)
Definition falsy (v : option string) : bool :=
  match v with
  | None => true
  | Some s => (s =? "")%string
  end.

(** [process.env.PORT || 3000]: the text of the variable, or the number. *)
Inductive Port : Type :=
| port_env (text : string)
| port_default (number : Z).

Definition show_port (p : Port) : string :=
  match p with
  | port_env text => text
  | port_default number => show_Z number
  end.

(** How the module ends: it returned before [app.listen], or the server
    listens with the settings it read. *)
Inductive Started : Type :=
| Stopped
| Serving (DRIVE_ID BUGZILLA_API_KEY : string) (PORT : Port).

(** [app.listen(PORT, callback)]: the server binds the port and the
    callback runs, or listening fails (a port that is no port, a port in
    use) and the error, which nothing handles, ends the process before
    the callback ran. *)
Variable app_listen : Port -> Completion unit.

Definition main : Prog Started :=
  let DRIVE_ID := process_env "MOZ_LOGUP_DRIVE_ID" in
  let BUGZILLA_API_KEY := process_env "MOZ_LOGUP_BUGZILLA_API_KEY" in
  match readFileSync GCLOUD_KEYFILEPATH with
  | Abrupt e => Uncaught e
  | Normal text =>
      match JSON_parse text with
      | Abrupt e => Uncaught e
      | Normal credentials =>
          if falsy DRIVE_ID then
            perform (console_log "Config failure: No drive id for file submission") ;;
            Ret Stopped
          else if falsy BUGZILLA_API_KEY then
            perform (console_log "Config failure: No bugzilla API key for notification") ;;
            Ret Stopped
          else
            let PORT :=
              if falsy (process_env "PORT") then port_default 3000
              else port_env (tpl (process_env "PORT")) in
            match app_listen PORT with
            | Abrupt e => Uncaught e
            | Normal _ =>
                perform (console_log ("Server running on port " ++ show_port PORT)) ;;
                Ret (Serving (tpl DRIVE_ID) (tpl BUGZILLA_API_KEY) PORT)
            end
      end
  end.
End Startup.

(** ** More to read off a trace *)

(** What [console.error] printed: the label and the error. *)
Definition as_error_log (e : Event) : option (string * Exn) :=
  match e with
  | Ev (console_error label error) _ => Some (label, error)
  | _ => None
  end.

Definition error_logs := pick as_error_log.

(** What [console.log] printed. *)
Definition as_log (e : Event) : option string :=
  match e with
  | Ev (console_log msg) _ => Some msg
  | _ => None
  end.

Definition logs := pick as_log.

(** The errors the storage side raised: rejected promises of the Drive
    client and of the credentials, and ['error'] events of the requests. *)
Definition as_rejection (e : Event) : option Exn :=
  match e with
  | Ev c a =>
      match c as c0 return Answer c0 -> option Exn with
      | drive_files_list _ => fun a0 => match a0 with Abrupt x => Some x | Normal _ => None end
      | drive_files_create _ => fun a0 => match a0 with Abrupt x => Some x | Normal _ => None end
      | auth_getClient => fun a0 => match a0 with Abrupt x => Some x | Normal _ => None end
      | client_getAccessToken =>
          fun a0 => match a0 with Abrupt x => Some x | Normal _ => None end
      | https_request _ _ => fun a0 => match a0 with Abrupt x => Some x | Normal _ => None end
      | _ => fun _ => None
      end a
  end.

Definition rejections := pick as_rejection.

(** The folder a run resolved for [name]: the one it created, else the
    one it found in the listing. *)
Definition resolved_folder (name : string) (tr : list Event) : option string :=
  match creates tr with
  | (_, Normal id) :: _ => Some id
  | (_, Abrupt _) :: _ => None
  | [] =>
      match lists tr with
      | (_, Normal files) :: _ => Some (found files name)
      | _ => None
      end
  end.

Definition is_create (c : Call) : bool :=
  match c with
  | drive_files_create _ => true
  | _ => false
  end.

(** The names of the folders of a drive. *)
Definition names (files : list File) : list string := map file_name files.

(** No two folders of a drive have the same name. *)
Definition unique_names {St : Type} (folders_of : St -> list File) (s : St) : Prop :=
  NoDup (names (folders_of s)).

(** ** More of the reference environment *)

(** The reference environment with credentials that are refused. *)
Definition locked_handle (c : Call) : World -> Answer c * World :=
  match c as c0 return World -> Answer c0 * World with
  | auth_getClient => fun w => (Abrupt (mkExn "Error" "invalid_grant"), w)
  | c0 => world_handle c0
  end.

(** The reference environment with a Drive that cannot list. *)
Definition down_handle (c : Call) : World -> Answer c * World :=
  match c as c0 return World -> Answer c0 * World with
  | drive_files_list _ => fun w => (Abrupt (mkExn "GaxiosError" "backend error"), w)
  | c0 => world_handle c0
  end.

(** The transfer is answered 200 with a page that is not JSON. *)
Definition garbling_world : World :=
  mkWorld ["12345"] true 201 [] 0 (w_session sample_world)
          (Normal (mkIncomingMessage 200 "OK" None ["<html>"; "</html>"])).

(** The session is granted without a [location] header. *)
Definition lost_world : World :=
  mkWorld ["12345"] true 201 [] 0 (Normal (mkIncomingMessage 200 "OK" None []))
          (w_transfer sample_world).

(** The tracker cannot be reached. *)
Definition offline_world : World :=
  mkWorld ["12345"] false 201 [] 0 (w_session sample_world) (w_transfer sample_world).

(** A drive in order: one folder, of another bug. *)
Definition tidy_world : World :=
  mkWorld ["12345"] true 201 [mkFile "1xYz" "12344"] 0
          (w_session sample_world) (w_transfer sample_world).

(** A key file and an environment to start the server with. *)
Definition sample_readFileSync (path : string) : Completion string :=
  if (path =? "key.json")%string then Normal (sample_stringify sample_descriptor)
  else Abrupt (mkExn "Error" "ENOENT: no such file or directory").

Definition sample_env (name : string) : option string :=
  if (name =? "MOZ_LOGUP_DRIVE_ID")%string then Some sample_DRIVE_ID
  else if (name =? "MOZ_LOGUP_BUGZILLA_API_KEY")%string then Some sample_KEY
  else None.

(** The same environment with the API key set to the empty text. *)
Definition keyless_env (name : string) : option string :=
  if (name =? "MOZ_LOGUP_BUGZILLA_API_KEY")%string then Some ""
  else sample_env name.

(** A network on which port 3000 is free and no text names a port. *)
Definition sample_listen (port : Port) : Completion unit :=
  match port with
  | port_default _ => Normal tt
  | port_env _ => Abrupt (mkExn "RangeError" "options.port should be >= 0 and < 65536")
  end.

(** * Properties *)

#[local] Arguments String.append : simpl never.
#[local] Arguments run : simpl never.

(** ** Strings and traces *)

Lemma append_assoc (a b c : string) : (a ++ b) ++ c = a ++ (b ++ c).
Proof.
  induction a as [|x a IH]; [reflexivity|].
  change ((String x a ++ b) ++ c) with (String x ((a ++ b) ++ c)).
  now rewrite IH.
Qed.

Lemma append_empty_r (a : string) : a ++ "" = a.
Proof.
  induction a as [|x a IH]; [reflexivity|].
  change (String x a ++ "") with (String x (a ++ "")). now rewrite IH.
Qed.

(** Appending chunk after chunk gives the chunks joined end to end. *)
Lemma fold_chunks (cs : list string) (acc : string) :
  fold_left (fun data chunk => data ++ chunk) cs acc = acc ++ String.concat "" cs.
Proof.
  revert acc; induction cs as [|c cs IH]; intros acc.
  - cbn. now rewrite append_empty_r.
  - cbn [fold_left]. rewrite IH. rewrite append_assoc. f_equal.
    destruct cs as [|c' cs]; [cbn; now rewrite append_empty_r|reflexivity].
Qed.

Lemma collect_concat (cs : list string) : collect cs = String.concat "" cs.
Proof. unfold collect. now rewrite fold_chunks. Qed.

Lemma pick_app (X : Type) (f : Event -> option X) (t1 t2 : list Event) :
  pick f (t1 ++ t2)%list = (pick f t1 ++ pick f t2)%list.
Proof.
  induction t1 as [|e t1 IH]; [reflexivity|].
  cbn [app pick]. destruct (f e); cbn [app]; now rewrite IH.
Qed.

Lemma probe_not_comment (x : string * FetchInit * Completion FetchResponse) :
  is_probe x = true -> is_comment x = false.
Proof. unfold is_probe, is_comment. now destruct (fi_method (snd (fst x))). Qed.

Lemma unconfirmed_one (probe : string * FetchInit * Completion FetchResponse) tr :
  fetches tr = [probe] -> is_probe probe = true ->
  unconfirmed tr = not_confirmed (snd probe).
Proof.
  intros E Hp. unfold unconfirmed. rewrite E. cbn. rewrite Hp. now rewrite orb_false_r.
Qed.

Lemma posted_false (a : Completion FetchResponse) :
  (forall response, a = Normal response -> status response <> 201) ->
  posted a = false.
Proof.
  intros H. destruct a as [r|e]; [|reflexivity].
  cbn. apply Z.eqb_neq. now apply H.
Qed.

(** A refused session request is the only request of its run. *)
Lemma refused_alone rs session :
  requests_order rs ->
  In session rs -> is_session session = true -> non_2xx (snd session) = true ->
  rs = [session] /\ is_transfer session = false.
Proof.
  intros Horder Hin Hsession Hrefused.
  destruct Horder as [|x Hs Ht|x y Hg Ht Hs].
  - destruct Hin.
  - destruct Hin as [<-|[]]. now split.
  - exfalso. destruct Hin as [<-|[<-|[]]]; [|congruence].
    unfold granted in Hg. rewrite Hrefused in Hg. now rewrite andb_false_r in Hg.
Qed.

(** ** The loop over the listing *)

Lemma for_file_of_nil (name : string) : for_file_of [] name = None.
Proof. reflexivity. Qed.

Lemma for_file_of_cons (file : File) (rest : list File) (name : string) :
  for_file_of (file :: rest) name =
  if (file_name file =? name)%string then Some (file_id file) else for_file_of rest name.
Proof. reflexivity. Qed.

(** The loop returns the id of the first entry whose name is the name
    asked for. *)
Lemma for_file_of_first (before after : list File) (file : File) (name : string) :
  file_name file = name ->
  (forall g, In g before -> file_name g <> name) ->
  for_file_of (before ++ file :: after)%list name = Some (file_id file).
Proof.
  intros Hname. induction before as [|g before IH]; intros Hbefore; cbn [app];
    rewrite for_file_of_cons.
  - apply String.eqb_eq in Hname. now rewrite Hname.
  - destruct (String.eqb_spec (file_name g) name) as [E|_].
    + exfalso. apply (Hbefore g); [now left | exact E].
    + apply IH. intros g' Hg'. apply Hbefore. now right.
Qed.

Lemma for_file_of_none (files : list File) (name : string) :
  (forall g, In g files -> file_name g <> name) ->
  for_file_of files name = None.
Proof.
  induction files as [|g files IH]; intros Hall; [reflexivity|]; rewrite for_file_of_cons.
  destruct (String.eqb_spec (file_name g) name) as [E|_].
  - exfalso. apply (Hall g); [now left | exact E].
  - apply IH. intros g' Hg'. apply Hall. now right.
Qed.

Lemma for_file_of_some (files : list File) (name id : string) :
  for_file_of files name = Some id ->
  In (mkFile id name) files.
Proof.
  induction files as [|g files IH]; [discriminate|]; rewrite for_file_of_cons.
  destruct (String.eqb_spec (file_name g) name) as [E|_].
  - intros H; inversion H; subst. left. now destruct g.
  - intros H. right. now apply IH.
Qed.

Lemma for_file_of_absent (files : list File) (name : string) :
  for_file_of files name = None ->
  forall g, In g files -> file_name g <> name.
Proof.
  induction files as [|f files IH]; intros Hnone g Hg; [destruct Hg|].
  rewrite for_file_of_cons in Hnone.
  destruct (String.eqb_spec (file_name f) name) as [E|Hne]; [discriminate|].
  destruct Hg as [<-|Hg]; [exact Hne|]. now apply IH.
Qed.

Section Properties.
Variables DRIVE_ID BUGZILLA_API_KEY : string.
Variable JSON_stringify : Json -> string.
Variable JSON_parse : string -> Completion Json.
Variable new_URL : string -> Completion URL.
Variable utf16_length : string -> Z.
Variable St : Type.
Variable handle : forall c : Call, St -> Answer c * St.

(** ** Running step by step *)

Lemma run_Do_inv (A : Type) (c : Call) (k : Answer c -> Prog A) s o s' tr :
  run handle (Do c k) s = (o, s', tr) ->
  exists a s1 tr1,
    handle c s = (a, s1) /\ run handle (k a) s1 = (o, s', tr1) /\ tr = Ev c a :: tr1.
Proof.
  unfold run at 1; fold (@run St handle A).
  destruct (handle c s) as [a s1].
  destruct (run handle (k a) s1) as [[o1 s2] tr1] eqn:Hrest.
  intros H; inversion H; subst. now exists a, s1, tr1.
Qed.

(** The first statement of a [try] block: its value flows on inside the
    block, its exception goes to the handler, its crash ends the run. *)
Lemma run_try_bind_inv (A B : Type) (p : Prog A) (k : A -> Prog B) (h : Exn -> Prog B)
    s o s' tr :
  run handle (try_catch (bind p k) h) s = (o, s', tr) ->
  exists o1 s1 t1,
    run handle p s = (o1, s1, t1)
    /\ match o1 with
       | Returned a =>
           exists t2, run handle (try_catch (k a) h) s1 = (o, s', t2) /\ tr = (t1 ++ t2)%list
       | Threw e =>
           exists t2, run handle (h e) s1 = (o, s', t2) /\ tr = (t1 ++ t2)%list
       | Crashed e => o = Crashed e /\ s' = s1 /\ tr = t1
       end.
Proof.
  revert s tr. induction p as [a|e|e|c q IH]; intros s tr; cbn [bind try_catch].
  - intros H. exists (Returned a), s, []. split; [reflexivity|]. now exists tr.
  - intros H. exists (Threw e), s, []. split; [reflexivity|]. now exists tr.
  - intros H. unfold run in H. inversion H; subst.
    exists (Crashed e), s', []. now split.
  - intros H. apply run_Do_inv in H. destruct H as (a & s1 & tr1 & Hc & H & ->).
    apply IH in H. destruct H as (o1 & s2 & t1 & Hp & Hrest).
    exists o1, s2, (Ev c a :: t1). split.
    + unfold run; fold (@run St handle A). now rewrite Hc, Hp.
    + destruct o1 as [v|e|e].
      * destruct Hrest as (t2 & Hk & ->). now exists t2.
      * destruct Hrest as (t2 & Hk & ->). now exists t2.
      * destruct Hrest as (-> & -> & ->). now repeat split.
Qed.

(** The value the program is waiting on: the innermost scrutinee. *)
Ltac scrutinee P :=
  lazymatch P with
  | try_catch ?p _ => scrutinee p
  | bind ?p _ => scrutinee p
  | match ?x with _ => _ end => scrutinee x
  | negb ?x => scrutinee x
  | _ => P
  end.

(** One step of a run: perform the call at the head of the program, or
    split on the value it branches on. *)
Ltac exec_step H :=
  cbn in H;
  lazymatch type of H with
  | run _ (Do _ _) _ = _ =>
      let a := fresh "a" in
      let s1 := fresh "s" in
      let tr1 := fresh "tr" in
      let Hc := fresh "Hcall" in
      apply run_Do_inv in H; destruct H as (a & s1 & tr1 & Hc & H & ->); cbn in a
  | run _ (Ret _) _ = _ => unfold run in H; inversion H; subst; clear H
  | run _ (Throw _) _ = _ => unfold run in H; inversion H; subst; clear H
  | run _ (Uncaught _) _ = _ => unfold run in H; inversion H; subst; clear H
  | run _ ?P _ = _ =>
      let x := scrutinee P in
      lazymatch type of x with
      | Prog _ => fail "stuck on an opaque program"
      | _ => let E := fresh "Hcase" in destruct x eqn:E
      end
  end.

Ltac exec H :=
  unfold upload, checkBugIdExists, createFolder, getFolderId, createResumableUpload,
    uploadFile, createBugzillaComment, await, perform in H;
  repeat exec_step H.

Ltac members :=
  repeat match goal with
    | H : In _ (_ :: _) |- _ => destruct H as [H | H]
    | H : In _ [] |- _ => destruct H
    | H : _ \/ _ |- _ => destruct H as [H | H]
    | H : False |- _ => destruct H
    | H : (_, _) = (_, _) |- _ => inversion H; subst; clear H
    end.

(** Compute the conditions on a trace, using what the run has fixed. *)
Ltac evaluate :=
  unfold fatal, uploaded, unconfirmed, stored, garbled, bad_location, granted, posted,
    is_session, is_transfer, is_probe, is_comment, not_confirmed, non_2xx,
    storage_calls, fetches, requests, lists, creates;
  cbn;
  repeat (progress
            (rewrite ?pick_app, ?existsb_app, ?filter_app;
             repeat match goal with
               | H : _ = true |- _ => rewrite H
               | H : _ = false |- _ => rewrite H
               | H : _ = Normal _ |- _ => rewrite H
               | H : _ = Abrupt _ |- _ => rewrite H
               | H : _ = [] |- _ => rewrite H
               end;
             cbn)).

(** ** The stages *)

Lemma createBugzillaComment_run :
  forall bugId (s : St) o s' tr,
    run handle (createBugzillaComment BUGZILLA_API_KEY JSON_stringify bugId) s = (o, s', tr) ->
    exists url init a commented,
      fetches tr = [(url, init, a)]
      /\ o = Returned commented
      /\ (commented = true <-> exists response, a = Normal response /\ status response = 201).
Proof.
  intros bugId s o s' tr H. exec H; cbn.
  - do 4 eexists. repeat split; try reflexivity.
    + intros Hs. exists a0. split; [reflexivity | now apply Z.eqb_eq].
    + intros (r & Hr & Hs). inversion Hr; subst. now apply Z.eqb_eq.
  - do 4 eexists. repeat split; try reflexivity; [discriminate|].
    intros (r & Hr & _). discriminate.
Qed.

(** The listing decides what [createFolder] does. *)
Lemma createFolder_run (name : string) (s : St) o s' tr :
  run handle (createFolder DRIVE_ID name) s = (o, s', tr) ->
  exists listed,
    lists tr = [(list_params DRIVE_ID, listed)]
    /\ match listed with
       | Abrupt e => o = Threw e /\ creates tr = []
       | Normal files =>
           if (found files name =? "")%string then
             exists created,
               creates tr = [(create_params DRIVE_ID name, created)] /\ o = settle created
           else
             o = Returned (found files name) /\ creates tr = []
       end.
Proof.
  intros H. exec H; cbn; eexists; (split; [reflexivity|]); cbn; unfold found.
  all: try match goal with
         | H : (Datatypes.length ?l =? 0)%nat = true |- _ =>
             destruct l; [clear H | discriminate H]
         end.
  all: try match goal with
         | H : for_file_of _ _ = _ |- _ => rewrite H
         end.
  all: try match goal with
         | H : (_ =? "")%string = _ |- _ => rewrite H
         end.
  all: rewrite ?for_file_of_nil; cbn; eauto.
Qed.

(** Folder resolution talks to the Drive client only, and ends by
    returning or throwing; it throws exactly when a Drive call was
    rejected. *)
Lemma createFolder_quiet (name : string) (s : St) o s' tr :
  run handle (createFolder DRIVE_ID name) s = (o, s', tr) ->
  fetches tr = [] /\ requests tr = []
  /\ match o with
     | Returned _ => existsb rejected tr = false
     | Threw _ => existsb rejected tr = true
     | Crashed _ => False
     end.
Proof.
  intros H. exec H; evaluate; auto.
Qed.

(** ** Every run of the handler *)

#[local] Arguments createFolder : simpl never.

Ltac exec_upload H :=
  unfold upload, checkBugIdExists, createResumableUpload,
    uploadFile, createBugzillaComment, await, perform in H;
  repeat
    (cbn in H;
     lazymatch type of H with
     | run _ (try_catch (bind (createFolder _ _) _) _) _ = _ =>
         let o1 := fresh "o" in
         let s1 := fresh "s" in
         let t1 := fresh "tr" in
         let Hf := fresh "Hfolder" in
         apply run_try_bind_inv in H; destruct H as (o1 & s1 & t1 & Hf & H);
         apply createFolder_quiet in Hf; unfold fetches, requests in Hf;
         destruct Hf as (? & ? & ?);
         destruct o1; [destruct H as (? & H & ->) | destruct H as (? & H & ->) | contradiction]
     | _ => exec_step H
     end).

Ltac finish :=
  lazymatch goal with
  | |- _ <> _ => assumption
  | |- requests_order _ => evaluate; constructor; evaluate; reflexivity
  | |- Returned _ = Returned _ =>
      evaluate;
      try match goal with
        | |- context [(status ?r =? 201)%Z] => destruct (status r =? 201)%Z
        end;
      reflexivity
  | |- _ => evaluate; reflexivity
  end.

(** Whatever the outside world answers, the handler ends in one of the
    five ways of [ends]. *)
Lemma upload_ends (req : Request) (s : St) o s' tr :
  run handle (upload DRIVE_ID BUGZILLA_API_KEY JSON_stringify JSON_parse new_URL utf16_length req) s
  = (o, s', tr) ->
  ends JSON_stringify JSON_parse new_URL req o tr.
Proof.
  intros H. exec_upload H.
  all: try (assert (Hfile : file req <> None) by congruence).
  all: lazymatch goal with
       | |- ends _ _ _ _ (Returned (status_send 400 _)) _ =>
           eapply ends_no_file; [assumption | reflexivity ..]
       | |- ends _ _ _ _ (Returned (status_send 500 _)) _ => eapply ends_fatal; finish
       | |- ends _ _ _ _ (Crashed _) _ => eapply ends_crash; finish
       | |- ends _ _ _ _ (Returned (send ("Failed to upload file: " ++ _))) _ =>
           eapply ends_ticket; finish
       | |- _ => eapply ends_success; finish
       end.
Qed.

(** ** The ticket check *)

(** C1. When the tracker does not confirm the ticket of a [POST /upload]
    request (its answer to the existence probe is not [ok], or the probe
    gets no answer), the handler makes no storage-side call at all: no
    folder listing, no folder creation, no credential or session request,
    no transfer of bytes.  It answers the caller with the message
    "Failed to upload file: " followed by the reason. *)
Theorem upload_unknown_ticket :
  forall (req : Request) (s : St) o s' tr,
    run handle
      (upload DRIVE_ID BUGZILLA_API_KEY JSON_stringify JSON_parse new_URL utf16_length req) s
    = (o, s', tr) ->
    forall probe,
      In probe (fetches tr) -> is_probe probe = true -> not_confirmed (snd probe) = true ->
      storage_calls tr = []
      /\ o = Returned (mkHttpResponse 200
                        ("Failed to upload file: "
                         ++ match snd probe with
                            | Normal _ => "Bug number does not appear to exist"
                            | Abrupt _ => "Unknown"
                            end)).
Proof.
  intros req s o s' tr H probe Hin Hprobe Hno.
  apply upload_ends in H.
  destruct H as [_ -> _
                |p _ Hf _ _ Hs _ _ _ ->
                |p _ Hf _ Hok _ _ _ _
                |p e _ Hf _ Hok _ _ _ _ _
                |p c _ Hf _ Hok _ Hc _ _ _ _ _].
  - destruct Hin.
  - rewrite Hf in Hin. destruct Hin as [<-|[]]. now split.
  - rewrite Hf in Hin. destruct Hin as [<-|[]]. congruence.
  - rewrite Hf in Hin. destruct Hin as [<-|[]]. congruence.
  - rewrite Hf in Hin. destruct Hin as [<-|[<-|[]]]; congruence.
Qed.

(** ** Status codes *)

(** C2, as the code has it.  [POST /upload] answers 400 "No file uploaded"
    when no file is attached; 200 when the upload succeeds, whether or not
    the comment could be posted; 200 as well when the ticket check fails
    (the message is sent with the default status); and 500 "Error
    uploading file" when folder resolution, session initiation or byte
    streaming fails.  A response never has another status, and each
    status occurs only for these reasons. *)
Theorem upload_status_codes :
  forall (req : Request) (s : St) o s' tr,
    run handle
      (upload DRIVE_ID BUGZILLA_API_KEY JSON_stringify JSON_parse new_URL utf16_length req) s
    = (o, s', tr) ->
    (file req = None -> o = Returned (mkHttpResponse 400 "No file uploaded"))
    /\ (unconfirmed tr = true -> exists body, o = Returned (mkHttpResponse 200 body))
    /\ (uploaded JSON_parse tr = true -> exists body, o = Returned (mkHttpResponse 200 body))
    /\ (fatal new_URL tr = true -> o = Returned (mkHttpResponse 500 "Error uploading file"))
    /\ (forall r, o = Returned r ->
                  (res_status r = 400 /\ file req = None)
                  \/ (res_status r = 200
                      /\ (unconfirmed tr = true \/ uploaded JSON_parse tr = true))
                  \/ (res_status r = 500 /\ fatal new_URL tr = true)).
Proof.
  intros req s o s' tr H. apply upload_ends in H.
  destruct H as [Hnone -> ->
                |p Hfile Hf Hp Hno _ _ Hfatal Hup ->
                |p Hfile Hf Hp Hok _ Hfatal Hup ->
                |p e Hfile Hf Hp Hok _ Hfatal Hup _ ->
                |p c Hfile Hf Hp Hok _ Hc _ _ Hfatal Hup ->].
  - repeat split; try discriminate; try reflexivity.
    intros r Hr. inversion Hr; subst. left. now split.
  - repeat split; try congruence; try (now eexists).
    intros r Hr. inversion Hr; subst. right; left. split; [reflexivity|]. left.
    now rewrite (@unconfirmed_one p tr Hf Hp).
  - assert (Hun : unconfirmed tr = false) by now rewrite (@unconfirmed_one p tr Hf Hp).
    repeat split; try congruence.
    intros r Hr. inversion Hr; subst. right; right. now split.
  - assert (Hun : unconfirmed tr = false) by now rewrite (@unconfirmed_one p tr Hf Hp).
    repeat split; try congruence.
  - repeat split; try congruence; try (now eexists).
    intros r Hr. inversion Hr; subst. right; left. split; [reflexivity|]. now right.
Qed.

(** ** The folder resolver *)

(** C4. The resolver lists the folder entries of the shared drive (one
    [files.list] call with [driveId = DRIVE_ID], [corpora = 'drive'] and
    the folder mime type as query) and compares the names with the name
    asked for by string equality: the first entry with exactly that name
    is the match, and its id (an id of the Drive, never empty) is returned
    without creating anything.  When no entry has that name, one folder is
    created with that name, the folder mime type and [DRIVE_ID] as its
    only parent, and the id the Drive assigns to it is returned. *)
Theorem createFolder_resolves :
  forall name (s : St) o s' tr,
    run handle (createFolder DRIVE_ID name) s = (o, s', tr) ->
    exists params listed,
      lists tr = [(params, listed)]
      /\ lp_driveId params = DRIVE_ID
      /\ lp_corpora params = "drive"
      /\ lp_q params = "mimeType='application/vnd.google-apps.folder'"
      /\ forall files,
          listed = Normal files ->
          (forall before file after,
              files = (before ++ file :: after)%list ->
              file_name file = name ->
              (forall g, In g before -> file_name g <> name) ->
              file_id file <> "" ->
              o = Returned (file_id file) /\ creates tr = [])
          /\ ((forall g, In g files -> file_name g <> name) ->
              exists created,
                creates tr =
                  [({| cp_supportsTeamDrives := true;
                       cp_driveId := DRIVE_ID;
                       cp_resource :=
                         {| fm_name := name;
                            fm_mimeType := "application/vnd.google-apps.folder";
                            fm_parents := [DRIVE_ID] |};
                       cp_fields := "id" |}, created)]
                /\ forall id, created = Normal id -> o = Returned id).
Proof.
  intros name s o s' tr H.
  apply createFolder_run in H. destruct H as (listed & Hlists & Hrun).
  exists (list_params DRIVE_ID), listed. repeat (split; [reflexivity || assumption|]).
  intros files ->. split.
  - intros before file after -> Hname Hbefore Hid.
    unfold found in Hrun. rewrite (for_file_of_first _ after _ Hname Hbefore) in Hrun.
    apply String.eqb_neq in Hid. now rewrite Hid in Hrun.
  - intros Habsent. unfold found in Hrun. rewrite (for_file_of_none _ Habsent) in Hrun.
    cbn in Hrun. destruct Hrun as (created & Hcreates & ->).
    exists created. split; [exact Hcreates|]. now intros id ->.
Qed.

(** ** The two upload requests *)

(** C5. When the session request gets a response, it is the only request
    made (no retry).  On a 2xx status the result is the [location] header
    of that response; on any other status the call fails with an error
    whose message holds the status code, the status message and the whole
    body of the response. *)
Theorem createResumableUpload_response :
  forall (fileMetadata : Json) (s : St) o s' tr,
    run handle
      (createResumableUpload DRIVE_ID JSON_stringify utf16_length fileMetadata) s
    = (o, s', tr) ->
    forall options payload res,
      In (options, payload, Normal res) (requests tr) ->
      requests tr = [(options, payload, Normal res)]
      /\ (is_2xx (statusCode res) = true -> o = Returned (headers_location res))
      /\ (is_2xx (statusCode res) = false ->
          o = Threw (Error ("Failed to create resumable upload session: "
                            ++ show_Z (statusCode res) ++ " " ++ statusMessage res
                            ++ " " ++ String.concat "" (chunks res)))).
Proof.
  intros meta s o s' tr H. exec H; cbn; intros options payload res Hin; members.
  all: rewrite <- ?collect_concat; repeat split; intros; congruence.
Qed.

(** What [uploadFile] makes of the answer to its request, in every
    environment.  On a 2xx response whose body is JSON it returns the
    parsed body.  On a response outside 2xx it fails with an error whose
    message is made of the status code and the status message alone: the
    body, collected from every answer, is not used on this branch. *)
Theorem uploadFile_response :
  forall uploadUrl fileSize fileMimeType bufferStream (s : St) o s' tr,
    run handle (uploadFile JSON_parse new_URL uploadUrl fileSize fileMimeType bufferStream) s
    = (o, s', tr) ->
    forall options payload res,
      In (options, payload, Normal res) (requests tr) ->
      (is_2xx (statusCode res) = false ->
       o = Threw (Error ("Failed to upload file: "
                         ++ show_Z (statusCode res) ++ " " ++ statusMessage res)))
      /\ (forall descriptor,
             is_2xx (statusCode res) = true ->
             JSON_parse (String.concat "" (chunks res)) = Normal descriptor ->
             o = Returned descriptor).
Proof.
  intros url size mime buf s o s' tr H. exec H; cbn; intros options payload res Hin; members.
  all: rewrite <- ?collect_concat; repeat split; intros; congruence.
Qed.

(** C6. When the session request of an upload is answered with a status
    outside 2xx, no transfer request is made in that run, and the caller
    gets 500 "Error uploading file". *)
Theorem upload_refused_session :
  forall (req : Request) (s : St) o s' tr,
    run handle
      (upload DRIVE_ID BUGZILLA_API_KEY JSON_stringify JSON_parse new_URL utf16_length req) s
    = (o, s', tr) ->
    forall session,
      In session (requests tr) -> is_session session = true ->
      non_2xx (snd session) = true ->
      (forall x, In x (requests tr) -> is_transfer x = false)
      /\ o = Returned (mkHttpResponse 500 "Error uploading file").
Proof.
  intros req s o s' tr H session Hin Hsession Hrefused.
  apply upload_ends in H.
  destruct H as [_ -> _
                |p _ _ _ _ _ Hr _ _ _
                |p _ _ _ _ Horder _ _ ->
                |p e _ _ _ _ Horder _ _ Hg _
                |p c _ _ _ _ _ _ _ Horder _ Hup _].
  - destruct Hin.
  - rewrite Hr in Hin. destruct Hin.
  - edestruct refused_alone as [E Ht]; [eassumption ..|].
    split; [|reflexivity].
    intros x Hx. rewrite E in Hx. now destruct Hx as [<-|[]].
  - exfalso. edestruct refused_alone as [E Ht]; [eassumption ..|].
    rewrite E in Hg. cbn in Hg. unfold garbled in Hg. rewrite Ht in Hg. discriminate.
  - exfalso. edestruct refused_alone as [E Ht]; [eassumption ..|].
    unfold uploaded in Hup. rewrite E in Hup. cbn in Hup. unfold stored in Hup.
    rewrite Ht in Hup. discriminate.
Qed.

(** ** The comment *)

(** C8. [createBugzillaComment] always returns a boolean and never throws:
    [true] exactly when the tracker answered with status 201, [false] for
    every other status and when the request failed.  In the handler a
    comment that was not posted does not turn into an error: the caller
    still gets status 200, with "Failed to comment to bugzilla" after the
    success line. *)
Theorem createBugzillaComment_contract :
  (forall bugId (s : St) o s' tr,
      run handle (createBugzillaComment BUGZILLA_API_KEY JSON_stringify bugId) s = (o, s', tr) ->
      exists url init a commented,
        fetches tr = [(url, init, a)]
        /\ o = Returned commented
        /\ (commented = true <-> exists response, a = Normal response /\ status response = 201))
  /\ (forall (req : Request) (s : St) o s' tr,
        run handle
          (upload DRIVE_ID BUGZILLA_API_KEY JSON_stringify JSON_parse new_URL utf16_length req) s
        = (o, s', tr) ->
        forall comment,
          In comment (fetches tr) -> is_comment comment = true ->
          (forall response, snd comment = Normal response -> status response <> 201) ->
          o = Returned (mkHttpResponse 200
                          ("File uploaded successfully." ++ LF
                           ++ "<br>Failed to comment to bugzilla"))).
Proof.
  split; [exact createBugzillaComment_run|].
  intros req s o s' tr H comment Hin Hcomment Hstatus.
  apply upload_ends in H.
  destruct H as [_ -> _
                |p _ Hf Hp _ _ _ _ _ _
                |p _ Hf Hp _ _ _ _ _
                |p e _ Hf Hp _ _ _ _ _ _
                |p c _ Hf Hp _ _ _ _ _ _ _ ->].
  - destruct Hin.
  - rewrite Hf in Hin. destruct Hin as [<-|[]]. apply probe_not_comment in Hp. congruence.
  - rewrite Hf in Hin. destruct Hin as [<-|[]]. apply probe_not_comment in Hp. congruence.
  - rewrite Hf in Hin. destruct Hin as [<-|[]]. apply probe_not_comment in Hp. congruence.
  - rewrite Hf in Hin. destruct Hin as [<-|[<-|[]]].
    + apply probe_not_comment in Hp. congruence.
    + now rewrite (@posted_false (snd c) Hstatus).
Qed.

(** C9. When the comment of an upload is posted (the tracker answers 201),
    the body sent to the tracker is the object whose [comment] field is
    "A log has been successfully uploaded to the team's storage", and the
    caller gets "File uploaded successfully.\n<br>Added comment to
    bugzilla" with status 200. *)
Theorem upload_success_messages :
  forall (req : Request) (s : St) o s' tr,
    run handle
      (upload DRIVE_ID BUGZILLA_API_KEY JSON_stringify JSON_parse new_URL utf16_length req) s
    = (o, s', tr) ->
    forall comment response,
      In comment (fetches tr) -> is_comment comment = true ->
      snd comment = Normal response -> status response = 201 ->
      fi_body (snd (fst comment))
      = Some (JSON_stringify
                (JObj [("comment",
                        JStr "A log has been successfully uploaded to the team's storage")]))
      /\ o = Returned (mkHttpResponse 200
                         ("File uploaded successfully." ++ LF
                          ++ "<br>Added comment to bugzilla")).
Proof.
  intros req s o s' tr H comment response Hin Hcomment Hanswer Hstatus.
  apply upload_ends in H.
  destruct H as [_ -> _
                |p _ Hf Hp _ _ _ _ _ _
                |p _ Hf Hp _ _ _ _ _
                |p e _ Hf Hp _ _ _ _ _ _
                |p c _ Hf Hp _ _ _ Hbody _ _ _ ->].
  - destruct Hin.
  - rewrite Hf in Hin. destruct Hin as [<-|[]]. apply probe_not_comment in Hp. congruence.
  - rewrite Hf in Hin. destruct Hin as [<-|[]]. apply probe_not_comment in Hp. congruence.
  - rewrite Hf in Hin. destruct Hin as [<-|[]]. apply probe_not_comment in Hp. congruence.
  - rewrite Hf in Hin. destruct Hin as [<-|[<-|[]]].
    + apply probe_not_comment in Hp. congruence.
    + split; [exact Hbody|]. rewrite Hanswer. cbn [posted].
      apply Z.eqb_eq in Hstatus. now rewrite Hstatus.
Qed.

(** C10. The file descriptor parsed from the answer to the transfer is not
    used: whatever it is, the response to the caller after a successful
    upload is one of the two fixed messages, the success line followed by
    the status of the comment. *)
Theorem upload_discards_descriptor :
  forall (req : Request) (s : St) o s' tr,
    run handle
      (upload DRIVE_ID BUGZILLA_API_KEY JSON_stringify JSON_parse new_URL utf16_length req) s
    = (o, s', tr) ->
    forall transfer res descriptor,
      In transfer (requests tr) -> is_transfer transfer = true ->
      snd transfer = Normal res -> is_2xx (statusCode res) = true ->
      JSON_parse (collect (chunks res)) = Normal descriptor ->
      o = Returned (mkHttpResponse 200
                      ("File uploaded successfully." ++ LF
                       ++ "<br>Added comment to bugzilla"))
      \/ o = Returned (mkHttpResponse 200
                         ("File uploaded successfully." ++ LF
                          ++ "<br>Failed to comment to bugzilla")).
Proof.
  intros req s o s' tr H transfer res descriptor Hin Htransfer Hanswer Hcode Hparse.
  assert (Hup : uploaded JSON_parse tr = true).
  { unfold uploaded. apply existsb_exists. exists transfer. split; [exact Hin|].
    unfold stored. now rewrite Htransfer, Hanswer, Hcode, Hparse. }
  apply upload_ends in H.
  destruct H as [_ -> _
                |p _ _ _ _ _ _ _ Hno _
                |p _ _ _ _ _ _ Hno _
                |p e _ _ _ _ _ _ Hno _ _
                |p c _ _ _ _ _ _ _ _ _ _ ->]; try congruence.
  - destruct Hin.
  - destruct (posted (snd c)); [left|right]; reflexivity.
Qed.

(** ** Resolving a folder twice *)

Section Idempotence.
(** The Drive as the code relies on it: the listing shows the folders of
    the shared drive, a created folder gets an id and shows up in the
    listing from then on, and nothing else changes the folders between
    and during the two calls (no concurrent creator). *)
Variable folders_of : St -> list File.

Hypothesis list_answers :
  forall params s,
    fst (handle (drive_files_list params) s) = Normal (folders_of s).
Hypothesis list_keeps :
  forall params s,
    folders_of (snd (handle (drive_files_list params) s)) = folders_of s.
Hypothesis log_keeps :
  forall msg s, folders_of (snd (handle (console_log msg) s)) = folders_of s.
Hypothesis create_adds :
  forall params s,
  exists id before after,
    id <> ""
    /\ fst (handle (drive_files_create params) s) = Normal id
    /\ folders_of s = (before ++ after)%list
    /\ folders_of (snd (handle (drive_files_create params) s))
       = (before ++ mkFile id (fm_name (cp_resource params)) :: after)%list.

Lemma createFolder_drive (name : string) (s : St) o s' tr :
  run handle (createFolder DRIVE_ID name) s = (o, s', tr) ->
  (found (folders_of s) name <> ""
   /\ o = Returned (found (folders_of s) name)
   /\ creates tr = []
   /\ folders_of s' = folders_of s)
  \/ (found (folders_of s) name = ""
      /\ exists id before after,
          id <> ""
          /\ o = Returned id
          /\ folders_of s = (before ++ after)%list
          /\ folders_of s' = (before ++ mkFile id name :: after)%list).
Proof.
  intros H. exec H.
  all: repeat match goal with
         | E : handle (drive_files_list ?p) ?s = (?a, ?s1) |- _ =>
             let Ha := fresh "Ha" in
             let Hs := fresh "Hs" in
             pose proof (list_answers p s) as Ha;
             pose proof (list_keeps p s) as Hs;
             rewrite E in Ha, Hs; cbn [fst snd] in Ha, Hs; clear E
         | E : handle (console_log ?m) ?s = (?a, ?s1) |- _ =>
             let Hs := fresh "Hs" in
             pose proof (log_keeps m s) as Hs;
             rewrite E in Hs; cbn [fst snd] in Hs; clear E
         | E : handle (drive_files_create ?p) ?s = (?a, ?s1) |- _ =>
             let Hc := fresh "Hc" in
             destruct (create_adds p s) as (? & ? & ? & ? & Hc & ? & ?);
             rewrite E in *; cbn [fst snd fm_name cp_resource] in *; clear E
         end.
  all: try discriminate.
  all: repeat match goal with
         | E : Normal _ = Normal _ |- _ => inversion E; subst; clear E
         | E : folders_of _ = folders_of _ |- _ => rewrite E in *; clear E
         end.
  all: unfold found.
  all: try match goal with
         | E : (Datatypes.length ?l =? 0)%nat = true |- _ =>
             let F := fresh "Hempty" in
             destruct l eqn:F; [clear E | discriminate E]; rewrite ?for_file_of_nil
         end.
  all: try match goal with
         | E : for_file_of _ _ = _ |- _ => rewrite E
         end.
  all: try match goal with
         | E : (_ =? "")%string = true |- _ => apply String.eqb_eq in E; subst
         | E : (_ =? "")%string = false |- _ => apply String.eqb_neq in E
         end.
  all: first [ left; now repeat split
             | right; split; [reflexivity|]; do 3 eexists; repeat split; eassumption ].
Qed.

(** C3. Resolving the same folder name twice in a row, on a Drive that
    answers and that nobody else writes to, returns the same folder id
    both times, and the second call creates nothing: it makes no create
    call and leaves the folders of the drive as the first call left
    them. *)
Theorem createFolder_idempotent :
  forall (name : string) (s : St) o1 s1 t1 o2 s2 t2,
    identified folders_of s ->
    run handle (createFolder DRIVE_ID name) s = (o1, s1, t1) ->
    run handle (createFolder DRIVE_ID name) s1 = (o2, s2, t2) ->
    exists id,
      o1 = Returned id /\ o2 = Returned id
      /\ creates t2 = []
      /\ folders_of s2 = folders_of s1.
Proof.
  intros name s o1 s1 t1 o2 s2 t2 Hids H1 H2.
  apply createFolder_drive in H1. apply createFolder_drive in H2.
  destruct H1 as [(Hfound & -> & _ & Hsame)
                 |(Hfound & id & before & after & Hid & -> & Hold & Hnew)].
  - rewrite Hsame in H2.
    destruct H2 as [(_ & -> & Hnone & Hkeep)|(Hnot & _)]; [|contradiction].
    exists (found (folders_of s) name). repeat split; congruence.
  - assert (Habsent : for_file_of (folders_of s) name = None).
    { unfold found in Hfound.
      destruct (for_file_of (folders_of s) name) as [id'|] eqn:E; [|reflexivity].
      subst id'. apply for_file_of_some in E. now apply Hids in E. }
    assert (Hnow : found (folders_of s1) name = id).
    { unfold found. rewrite Hnew.
      rewrite (@for_file_of_first before after (mkFile id name) name); [reflexivity ..|].
      intros g Hg. apply (for_file_of_absent _ Habsent).
      rewrite Hold. apply in_or_app. now left. }
    rewrite Hnow in H2.
    destruct H2 as [(_ & -> & Hnone & Hkeep)|(Hnot & _)]; [|contradiction].
    exists id. repeat split; congruence.
Qed.
End Idempotence.

(** ** The stages on their own *)

(** X1. [getFolderId] only looks: it makes one listing call and no other
    call to the Drive or the tracker.  A rejected listing is thrown on.
    With a listing whose entries all have an id, the result is the empty
    text exactly when no entry has the name asked for (in particular for
    an empty listing), and any other result is the id of a listed entry
    of that name. *)
Theorem getFolderId_lookup :
  forall name (s : St) o s' tr,
    run handle (getFolderId DRIVE_ID name) s = (o, s', tr) ->
    exists listed,
      lists tr = [(list_params DRIVE_ID, listed)]
      /\ creates tr = [] /\ fetches tr = [] /\ requests tr = []
      /\ (forall e, listed = Abrupt e -> o = Threw e)
      /\ (forall files,
             listed = Normal files ->
             (forall g, In g files -> file_id g <> "") ->
             exists id,
               o = Returned id
               /\ (id = "" <-> forall g, In g files -> file_name g <> name)
               /\ (id <> "" -> In (mkFile id name) files)).
Proof.
  intros name s o s' tr H. exec H; cbn; eexists; (split; [reflexivity|]).
  all: repeat (split; [reflexivity|]).
  all: split; [intros e' He'; now inversion He'|].
  all: intros files Hfiles Hids; inversion Hfiles; subst; clear Hfiles.
  all: try match goal with
         | E : (Datatypes.length ?l =? 0)%nat = true |- _ =>
             destruct l; [clear E | discriminate E]
         end.
  all: eexists; (split; [reflexivity|]).
  - split; [split; [intros _ g []|reflexivity]|]. intros Hne. now elim Hne.
  - match goal with E : for_file_of _ _ = Some _ |- _ =>
      pose proof (for_file_of_some _ _ E) as Hin end.
    split; [|intros _; exact Hin].
    split.
    + intros ->. now apply Hids in Hin.
    + intros Habsent. exfalso. now apply (Habsent _ Hin).
  - match goal with E : for_file_of _ _ = None |- _ =>
      pose proof (for_file_of_absent _ E) as Habsent end.
    split; [split; [intros _; exact Habsent|reflexivity]|]. intros Hne. now elim Hne.
Qed.

(** X2. [createFolder] does not create blindly: when the listing is
    rejected it throws that error and makes no create call, and when the
    create call is rejected it throws that error. *)
Theorem createFolder_failures :
  forall name (s : St) o s' tr,
    run handle (createFolder DRIVE_ID name) s = (o, s', tr) ->
    (forall params e, In (params, Abrupt e) (lists tr) -> o = Threw e /\ creates tr = [])
    /\ (forall params e, In (params, Abrupt e) (creates tr) -> o = Threw e).
Proof.
  intros name s o s' tr H.
  apply createFolder_run in H. destruct H as (listed & Hlists & Hrun).
  rewrite Hlists. split.
  - intros params e [E|[]]. inversion E; subst. exact Hrun.
  - intros params e Hin. destruct listed as [files|e'].
    + destruct (found files name =? "")%string.
      * destruct Hrun as (created & Hcreates & ->). rewrite Hcreates in Hin.
        destruct Hin as [E|[]]. now inversion E.
      * destruct Hrun as [_ Hnone]. rewrite Hnone in Hin. destruct Hin.
    + destruct Hrun as [_ Hnone]. rewrite Hnone in Hin. destruct Hin.
Qed.

(** X3. [checkBugIdExists] makes exactly one call, a GET of the bug with
    the API key in its header, and always returns a verdict, never an
    exception.  The verdict is "no error" exactly when the tracker
    answered with a status from 200 to 299; otherwise it carries the
    message "Bug number does not appear to exist" for an answer of another
    status and "Unknown" when there was no answer. *)
Theorem checkBugIdExists_verdict :
  forall bugId (s : St) o s' tr,
    run handle (checkBugIdExists BUGZILLA_API_KEY bugId) s = (o, s', tr) ->
    exists a verdict,
      tr = [Ev (fetch ("https://bugzilla.mozilla.org/rest/bug/" ++ tpl bugId)
                  {| fi_method := None;
                     fi_headers := [("X-BUGZILLA-API-KEY", BUGZILLA_API_KEY)];
                     fi_body := None |}) a]
      /\ o = Returned verdict
      /\ (error verdict = false
          <-> exists response,
              a = Normal response /\ 200 <= status response <= 299)
      /\ (error verdict = true ->
          message verdict
          = Some match a with
                 | Normal _ => "Bug number does not appear to exist"
                 | Abrupt _ => "Unknown"
                 end).
Proof.
  intros bugId s o s' tr H. exec H; do 2 eexists; (split; [reflexivity|]);
    (split; [reflexivity|]); cbn.
  - split; [|discriminate]. split; [|reflexivity].
    intros _. eexists. split; [reflexivity|].
    match goal with E : ok _ = true |- _ =>
      unfold ok in E; apply andb_true_iff in E; destruct E as [Hlo Hhi] end.
    apply Z.leb_le in Hlo, Hhi. now split.
  - split; [|reflexivity]. split; [discriminate|].
    intros (r & Hr & Hlo & Hhi). inversion Hr; subst.
    match goal with E : ok _ = false |- _ => unfold ok in E end.
    apply Z.leb_le in Hlo, Hhi. rewrite Hlo, Hhi in *. discriminate.
  - split; [|reflexivity]. split; [discriminate|]. intros (r & Hr & _). discriminate.
Qed.

(** X4. [createResumableUpload] throws on whatever the storage side
    raises, unchanged: a failure of the credentials, in which case no
    request is sent at all, or an ['error'] of the request.  When it sends
    its request, that is a POST to the upload endpoint of the shared
    drive, authorised with the token it was given, whose body is the
    serialised metadata. *)
Theorem createResumableUpload_request :
  forall (fileMetadata : Json) (s : St) o s' tr,
    run handle
      (createResumableUpload DRIVE_ID JSON_stringify utf16_length fileMetadata) s
    = (o, s', tr) ->
    (forall e, In e (rejections tr) -> o = Threw e)
    /\ (requests tr = [] -> exists e, rejections tr = [e])
    /\ (forall x,
           In x (requests tr) ->
           snd (fst x) = Text (JSON_stringify fileMetadata)
           /\ ro_method (fst (fst x)) = "POST"
           /\ ro_hostname (fst (fst x)) = "www.googleapis.com"
           /\ ro_path (fst (fst x))
              = "/upload/drive/v3/files?uploadType=resumable&supportsTeamDrives=true&driveId="
                ++ DRIVE_ID
           /\ exists token,
               In (Ev client_getAccessToken (Normal token)) tr
               /\ In ("Authorization", JStr ("Bearer " ++ tpl token))
                     (ro_headers (fst (fst x)))).
Proof.
  intros meta s o s' tr H. exec H; cbn.
  all: repeat split; intros; members; subst; cbn; try discriminate; try reflexivity; eauto.
  all: eexists; split; [right; left; reflexivity|]; cbn; auto.
Qed.

(** X5. [uploadFile] sends nothing when the session URL is not a URL and
    throws the error of the URL constructor.  Otherwise it sends one PUT
    to the host, path and query of that URL, declaring the given size and
    type and carrying the given bytes; an ['error'] of the request is
    thrown on unchanged. *)
Theorem uploadFile_request :
  forall uploadUrl fileSize fileMimeType bufferStream (s : St) o s' tr,
    run handle (uploadFile JSON_parse new_URL uploadUrl fileSize fileMimeType bufferStream) s
    = (o, s', tr) ->
    (forall e, new_URL (tpl uploadUrl) = Abrupt e -> o = Threw e /\ tr = [])
    /\ (forall e, In e (rejections tr) -> o = Threw e)
    /\ (forall parsedUrl,
           new_URL (tpl uploadUrl) = Normal parsedUrl ->
           exists answer,
             requests tr =
               [({| ro_method := "PUT";
                    ro_hostname := url_hostname parsedUrl;
                    ro_path := url_pathname parsedUrl ++ url_search parsedUrl;
                    ro_headers := [("Content-Length", JNum fileSize);
                                   ("Content-Type", JStr fileMimeType)] |},
                 Bytes bufferStream, answer)]).
Proof.
  intros url size mime buf s o s' tr H. exec H; cbn.
  all: repeat split; intros; members; try congruence; try reflexivity.
  all: match goal with
       | E : Normal _ = Normal _ |- _ => inversion E; subst
       end.
  all: eexists; reflexivity.
Qed.

(** X6. A 2xx answer to the transfer whose body is not JSON is not a
    failure [uploadFile] reports: the exception of [JSON.parse] is raised
    in the ['end'] listener, where neither the promise nor a [try] of the
    caller receives it. *)
Theorem uploadFile_garbled_answer :
  forall uploadUrl fileSize fileMimeType bufferStream (s : St) o s' tr,
    run handle (uploadFile JSON_parse new_URL uploadUrl fileSize fileMimeType bufferStream) s
    = (o, s', tr) ->
    forall x res e,
      In x (requests tr) -> snd x = Normal res ->
      is_2xx (statusCode res) = true ->
      JSON_parse (collect (chunks res)) = Abrupt e ->
      o = Crashed e.
Proof.
  intros url size mime buf s o s' tr H. exec H; cbn.
  all: intros x res e' Hin Hx Hcode Hparse; members; subst; cbn in Hx; inversion Hx; subst;
    congruence.
Qed.

(** ** More about every run of the handler *)

(** What folder resolution leaves in a trace. *)
Lemma createFolder_views (name : string) (s : St) o s' tr :
  run handle (createFolder DRIVE_ID name) s = (o, s', tr) ->
  pick as_fetch tr = [] /\ pick as_request tr = [] /\ pick as_error_log tr = []
  /\ (Datatypes.length (pick as_list tr) <= 1)%nat
  /\ (Datatypes.length (pick as_create tr) <= 1)%nat
  /\ pick as_rejection tr = match o with Threw e => [e] | _ => [] end
  /\ (forall folder, o = Returned folder -> resolved_folder name tr = Some folder).
Proof.
  intros H. exec H; cbn; repeat split; try lia; try discriminate.
  all: intros folder Hfolder; inversion Hfolder; subst; clear Hfolder.
  all: unfold resolved_folder, creates, lists, found; cbn; try reflexivity.
  all: try match goal with
         | E : (Datatypes.length ?l =? 0)%nat = true |- _ =>
             destruct l; [clear E | discriminate E]; rewrite ?for_file_of_nil
         end.
  all: try match goal with
         | E : for_file_of _ _ = _ |- _ => rewrite E
         end.
  all: reflexivity.
Qed.

Ltac exec_upload_keep H :=
  unfold upload, checkBugIdExists, createResumableUpload,
    uploadFile, createBugzillaComment, await, perform in H;
  repeat
    (cbn in H;
     lazymatch type of H with
     | run _ (try_catch (bind (createFolder _ _) _) _) _ = _ =>
         let o1 := fresh "o" in
         let s1 := fresh "s" in
         let t1 := fresh "tr" in
         let Hf := fresh "Hfolder" in
         let Hv := fresh "Hviews" in
         apply run_try_bind_inv in H; destruct H as (o1 & s1 & t1 & Hf & H);
         pose proof Hf as Hv; apply createFolder_views in Hv;
         destruct Hv as (? & ? & ? & ? & ? & ? & ?);
         destruct o1;
         [ destruct H as (? & H & ->)
         | destruct H as (? & H & ->)
         | apply createFolder_quiet in Hf; destruct Hf as (_ & _ & []) ]
     | _ => exec_step H
     end).

(** Compute the views of a trace in a hypothesis or in the goal. *)
Ltac views_in Hin :=
  unfold fetches, requests, lists, creates, rejections, error_logs in Hin;
  cbn in Hin;
  repeat (progress
            (rewrite ?pick_app in Hin;
             repeat match goal with
               | E : pick _ _ = [] |- _ => rewrite E in Hin
               end;
             cbn in Hin)).

Ltac views :=
  unfold fetches, requests, lists, creates, rejections, error_logs;
  cbn;
  repeat (progress
            (rewrite ?pick_app, ?length_app;
             repeat match goal with
               | E : pick _ _ = _ |- _ => rewrite E
               end;
             cbn)).

(** X7. The handler never lets an exception escape as a rejection, and it
    fails to answer in one case only: when the transfer was answered 2xx
    with a body that is not JSON, the exception of [JSON.parse] ends the
    process and no response is sent. *)
Theorem upload_always_answers :
  forall (req : Request) (s : St) o s' tr,
    run handle
      (upload DRIVE_ID BUGZILLA_API_KEY JSON_stringify JSON_parse new_URL utf16_length req) s
    = (o, s', tr) ->
    (forall e, o <> Threw e)
    /\ (forall e,
           o = Crashed e
           <-> exists x res,
               In x (requests tr) /\ is_transfer x = true /\ snd x = Normal res
               /\ is_2xx (statusCode res) = true
               /\ JSON_parse (collect (chunks res)) = Abrupt e).
Proof.
  intros req s o s' tr H. exec_upload_keep H.
  all: split; [discriminate|]; intros e'; split.
  all: try discriminate.
  all: try (intros (x & res & Hin & Hx & Hres & Hcode & Hparse); exfalso;
            views_in Hin; members; subst; cbn in Hx, Hres; try discriminate;
            inversion Hres; subst; congruence).
  all: try (intros Hcrash; inversion Hcrash; subst; do 2 eexists; views;
            split; [right; left; reflexivity|]; repeat split; assumption).
  all: intros (x & res & Hin & Hx & Hres & Hcode & Hparse);
    views_in Hin; members; subst; cbn in Hx, Hres; try discriminate;
    inversion Hres; subst; congruence.
Qed.

(** X8. The tracker is told about an upload only after it happened: when
    a comment is sent, the bytes were accepted before and their answer
    read, no stage failed, and the comment goes to the bug of the
    request, with the API key, right after the probe of that bug was
    confirmed. *)
Theorem upload_comment_after_store :
  forall (req : Request) (s : St) o s' tr,
    run handle
      (upload DRIVE_ID BUGZILLA_API_KEY JSON_stringify JSON_parse new_URL utf16_length req) s
    = (o, s', tr) ->
    forall comment,
      In comment (fetches tr) -> is_comment comment = true ->
      uploaded JSON_parse tr = true
      /\ fatal new_URL tr = false
      /\ fst comment
         = ("https://bugzilla.mozilla.org/rest/bug/" ++ tpl (bugid req) ++ "/comment",
            {| fi_method := Some "POST";
               fi_headers := [("X-BUGZILLA-API-KEY", BUGZILLA_API_KEY)];
               fi_body := Some (JSON_stringify comment_data) |})
      /\ exists response,
          fetches tr
          = [("https://bugzilla.mozilla.org/rest/bug/" ++ tpl (bugid req),
              {| fi_method := None;
                 fi_headers := [("X-BUGZILLA-API-KEY", BUGZILLA_API_KEY)];
                 fi_body := None |},
              Normal response);
             comment]
          /\ ok response = true.
Proof.
  intros req s o s' tr H. exec_upload H.
  all: intros comment Hin Hcomment; views_in Hin; members; subst;
    try discriminate Hcomment.
  all: split; [evaluate; reflexivity|].
  all: split; [evaluate; reflexivity|].
  all: split; [reflexivity|].
  all: eexists; split; [views; reflexivity|assumption].
Qed.

(** X9. Nothing is retried: a run of the handler makes at most one
    listing call, one create call, one session request, one transfer, one
    probe of the tracker and one comment. *)
Theorem upload_calls_once :
  forall (req : Request) (s : St) o s' tr,
    run handle
      (upload DRIVE_ID BUGZILLA_API_KEY JSON_stringify JSON_parse new_URL utf16_length req) s
    = (o, s', tr) ->
    (Datatypes.length (lists tr) <= 1)%nat
    /\ (Datatypes.length (creates tr) <= 1)%nat
    /\ (Datatypes.length (filter is_session (requests tr)) <= 1)%nat
    /\ (Datatypes.length (filter is_transfer (requests tr)) <= 1)%nat
    /\ (Datatypes.length (filter is_probe (fetches tr)) <= 1)%nat
    /\ (Datatypes.length (filter is_comment (fetches tr)) <= 1)%nat.
Proof.
  intros req s o s' tr H. exec_upload_keep H.
  all: repeat split; views; rewrite ?Nat.add_0_r; try assumption; lia.
Qed.

(** X10. The file goes into the folder of its bug: the body of the session
    request is the serialised metadata whose name is the original name of
    the attached file and whose only parent is the folder this run
    resolved for the bug id, the one it created or else the one it
    found. *)
Theorem upload_session_metadata :
  forall (req : Request) (s : St) o s' tr,
    run handle
      (upload DRIVE_ID BUGZILLA_API_KEY JSON_stringify JSON_parse new_URL utf16_length req) s
    = (o, s', tr) ->
    forall req_file session,
      file req = Some req_file ->
      In session (requests tr) -> is_session session = true ->
      exists folder,
        resolved_folder (tpl (bugid req)) tr = Some folder
        /\ snd (fst session)
           = Text (JSON_stringify
                     (JObj [("name", JStr (originalname req_file));
                            ("parents", JArr [JStr folder])])).
Proof.
  intros req s o s' tr H. exec_upload_keep H.
  all: intros req_file session Hfile Hin Hsession; try congruence.
  all: views_in Hin; members; subst; try discriminate Hsession.
  all: match goal with
       | F : Some _ = Some _ |- _ => inversion F; subst
       end.
  all: eexists; split; [|reflexivity].
  all: match goal with
       | E : forall folder, Returned _ = Returned folder -> _ |- _ =>
           specialize (E _ eq_refl); revert E
       end.
  all: unfold resolved_folder, creates, lists; cbn; rewrite !pick_app; cbn;
    rewrite !app_nil_r; exact (fun E => E).
Qed.

(** X11. The bytes that are stored are the bytes that were attached: the
    transfer is a PUT carrying the buffer of the attached file, declared
    with its size and its mime type, and sent to the host, path and query
    of the [location] the granted session gave. *)
Theorem upload_transfer_request :
  forall (req : Request) (s : St) o s' tr,
    run handle
      (upload DRIVE_ID BUGZILLA_API_KEY JSON_stringify JSON_parse new_URL utf16_length req) s
    = (o, s', tr) ->
    forall req_file transfer,
      file req = Some req_file ->
      In transfer (requests tr) -> is_transfer transfer = true ->
      exists session res parsedUrl,
        In session (requests tr) /\ is_session session = true
        /\ snd session = Normal res /\ is_2xx (statusCode res) = true
        /\ new_URL (tpl (headers_location res)) = Normal parsedUrl
        /\ fst transfer
           = ({| ro_method := "PUT";
                 ro_hostname := url_hostname parsedUrl;
                 ro_path := url_pathname parsedUrl ++ url_search parsedUrl;
                 ro_headers := [("Content-Length", JNum (size req_file));
                                ("Content-Type", JStr (mimetype req_file))] |},
              Bytes (buffer req_file)).
Proof.
  intros req s o s' tr H. exec_upload H.
  all: intros req_file transfer Hfile Hin Htransfer; try congruence.
  all: views_in Hin; members; subst; try discriminate Htransfer.
  all: match goal with
       | F : Some _ = Some _ |- _ => inversion F; subst
       end.
  all: do 3 eexists; views.
  all: split; [left; reflexivity|].
  all: repeat (split; [reflexivity || eassumption|]); reflexivity.
Qed.

(** X12. A response with status 500 comes with exactly one line of
    [console.error], labelled "Error uploading file:", and the error it
    shows is the cause: whatever the storage side raised in this run is
    that error. *)
Theorem upload_failure_logged :
  forall (req : Request) (s : St) o s' tr,
    run handle
      (upload DRIVE_ID BUGZILLA_API_KEY JSON_stringify JSON_parse new_URL utf16_length req) s
    = (o, s', tr) ->
    forall r,
      o = Returned r -> res_status r = 500 ->
      exists e,
        error_logs tr = [("Error uploading file:", e)]
        /\ (forall e', In e' (rejections tr) -> e' = e).
Proof.
  intros req s o s' tr H. exec_upload_keep H.
  all: intros r Hr Hstatus; inversion Hr; subst; try discriminate Hstatus.
  all: eexists; split; [views; reflexivity|].
  all: intros e' Hin; views_in Hin;
    repeat match goal with
      | E : pick as_rejection _ = _ |- _ => rewrite E in Hin; cbn in Hin
      end;
    members; subst; reflexivity.
Qed.

(** ** One folder for each bug *)

Lemma no_create_calls (tr : list Event) :
  creates tr = [] -> Forall (fun e => is_create (call_of e) = false) tr.
Proof.
  unfold creates. induction tr as [|[c a] tr IH]; intros H; [constructor|].
  destruct c; cbn in H; try discriminate; constructor; auto.
Qed.

Section OneFolder.
(** The Drive as before: the listing shows its folders, a created folder
    gets an id and is added to them, and no other call changes them. *)
Variable folders_of : St -> list File.

Hypothesis list_answers :
  forall params s,
    fst (handle (drive_files_list params) s) = Normal (folders_of s).
Hypothesis others_keep :
  forall c s,
    is_create c = false -> folders_of (snd (handle c s)) = folders_of s.
Hypothesis create_adds :
  forall params s,
  exists id before after,
    id <> ""
    /\ fst (handle (drive_files_create params) s) = Normal id
    /\ folders_of s = (before ++ after)%list
    /\ folders_of (snd (handle (drive_files_create params) s))
       = (before ++ mkFile id (fm_name (cp_resource params)) :: after)%list.

(** The folders of the drive change through create calls only. *)
Lemma run_keeps (A : Type) (p : Prog A) :
  forall s o s' tr,
    run handle p s = (o, s', tr) ->
    Forall (fun e => is_create (call_of e) = false) tr ->
    folders_of s' = folders_of s.
Proof.
  induction p as [a|e|e|c k IH]; intros s o s' tr H Hquiet.
  - unfold run in H. now inversion H.
  - unfold run in H. now inversion H.
  - unfold run in H. now inversion H.
  - apply run_Do_inv in H. destruct H as (a & s1 & tr1 & Hc & H & ->).
    inversion Hquiet as [|e l Hhead Htail]; subst.
    rewrite (IH a s1 o s' tr1 H Htail).
    pose proof (others_keep c s Hhead) as Hkeep. now rewrite Hc in Hkeep.
Qed.

(** Folder resolution on such a drive: it returns a folder that is there,
    or adds the one that was missing. *)
Lemma createFolder_adds (name : string) (s : St) o s' tr :
  identified folders_of s ->
  run handle (createFolder DRIVE_ID name) s = (o, s', tr) ->
  (exists g,
      In g (folders_of s) /\ file_name g = name /\ o = Returned (file_id g)
      /\ creates tr = [] /\ folders_of s' = folders_of s)
  \/ ((forall g, In g (folders_of s) -> file_name g <> name)
      /\ exists id before after,
          id <> "" /\ o = Returned id
          /\ Datatypes.length (creates tr) = 1%nat
          /\ folders_of s = (before ++ after)%list
          /\ folders_of s' = (before ++ mkFile id name :: after)%list).
Proof.
  intros Hids H.
  pose proof H as Hviews. apply createFolder_views in Hviews.
  destruct Hviews as (_ & _ & _ & _ & Hcount & _ & _).
  pose proof H as Hdrive.
  apply (@createFolder_drive folders_of list_answers
           (fun params s0 => others_keep (drive_files_list params) s0 eq_refl)
           (fun msg s0 => others_keep (console_log msg) s0 eq_refl)
           create_adds) in Hdrive.
  destruct Hdrive as [(Hfound & -> & Hnone & Hsame)
                     |(Hfound & id & before & after & Hid & -> & Hold & Hnew)].
  - left. unfold found in *.
    destruct (for_file_of (folders_of s) name) as [id|] eqn:E; [|now elim Hfound].
    apply for_file_of_some in E. exists (mkFile id name). now repeat split.
  - right. split.
    + apply for_file_of_absent. unfold found in Hfound.
      destruct (for_file_of (folders_of s) name) as [id'|] eqn:E; [|reflexivity].
      subst id'. apply for_file_of_some in E. now apply Hids in E.
    + exists id, before, after. repeat split; try assumption.
      destruct (creates tr) as [|x rest] eqn:Hcreates.
      * exfalso. apply no_create_calls in Hcreates.
        pose proof (@run_keeps _ _ _ _ _ _ H Hcreates) as Hkeep.
        rewrite Hold, Hnew in Hkeep. apply (f_equal (@Datatypes.length File)) in Hkeep.
        rewrite !length_app in Hkeep. cbn in Hkeep. lia.
      * unfold creates in Hcreates. rewrite Hcreates in Hcount.
        destruct rest; [reflexivity|cbn in Hcount; lia].
Qed.

Lemma identified_add (s s' : St) id name before after :
  identified folders_of s -> id <> "" ->
  folders_of s = (before ++ after)%list ->
  folders_of s' = (before ++ mkFile id name :: after)%list ->
  identified folders_of s'.
Proof.
  unfold identified. intros Hids Hid Hold Hnew g Hg. rewrite Hnew in Hg.
  apply in_app_or in Hg. destruct Hg as [Hg|[<-|Hg]]; [|exact Hid|].
  - apply Hids. rewrite Hold. apply in_or_app. now left.
  - apply Hids. rewrite Hold. apply in_or_app. now right.
Qed.

Lemma unique_add (s s' : St) id name before after :
  unique_names folders_of s ->
  (forall g, In g (folders_of s) -> file_name g <> name) ->
  folders_of s = (before ++ after)%list ->
  folders_of s' = (before ++ mkFile id name :: after)%list ->
  unique_names folders_of s'.
Proof.
  unfold unique_names, names. intros Huniq Habsent Hold Hnew.
  rewrite Hnew, map_app. cbn [map file_name].
  apply (NoDup_Add (a := name) (l := map file_name (before ++ after))).
  - rewrite map_app. apply Add_app.
  - split; [now rewrite <- Hold|].
    intros Hin. apply in_map_iff in Hin. destruct Hin as (g & Hname & Hg).
    apply (Habsent g); [now rewrite Hold | exact Hname].
Qed.

(** X13. On a drive whose folders all have an id and distinct names,
    [createFolder] keeps both: afterwards every folder still has an id
    and no two folders share a name.  It removes nothing, and the id it
    returns is the id of a folder of the drive that has the name asked
    for. *)
Theorem createFolder_keeps_unique :
  forall (name : string) (s : St) o s' tr,
    identified folders_of s -> unique_names folders_of s ->
    run handle (createFolder DRIVE_ID name) s = (o, s', tr) ->
    identified folders_of s' /\ unique_names folders_of s'
    /\ (forall g, In g (folders_of s) -> In g (folders_of s'))
    /\ exists g,
        In g (folders_of s') /\ file_name g = name /\ o = Returned (file_id g).
Proof.
  intros name s o s' tr Hids Huniq H.
  pose proof createFolder_adds as Hadds. specialize (Hadds name s o s' tr Hids H).
  destruct Hadds
    as [(g & Hg & Hname & -> & _ & Hsame)
       |(Habsent & id & before & after & Hid & -> & _ & Hold & Hnew)].
  - unfold identified, unique_names. rewrite Hsame. repeat split; auto.
    exists g. now repeat split.
  - split; [eapply identified_add; eassumption|].
    split; [eapply unique_add; eassumption|].
    split.
    + intros g Hg. rewrite Hold in Hg. rewrite Hnew.
      apply in_app_or in Hg. apply in_or_app. destruct Hg; [now left|right; now right].
    + exists (mkFile id name). rewrite Hnew. repeat split.
      apply in_or_app. right. now left.
Qed.

(** What a run of the handler does to the folders of the drive. *)
Lemma upload_adds (req : Request) (s : St) o s' tr :
  identified folders_of s ->
  run handle (upload DRIVE_ID BUGZILLA_API_KEY JSON_stringify JSON_parse new_URL utf16_length req) s
  = (o, s', tr) ->
  (creates tr = [] /\ folders_of s' = folders_of s)
  \/ ((forall g, In g (folders_of s) -> file_name g <> tpl (bugid req))
      /\ exists id before after,
          id <> ""
          /\ Datatypes.length (creates tr) = 1%nat
          /\ folders_of s = (before ++ after)%list
          /\ folders_of s' = (before ++ mkFile id (tpl (bugid req)) :: after)%list).
Proof.
  intros Hids H. exec_upload_keep H.
  all: repeat match goal with
         | E : handle ?c ?s0 = (_, _) |- _ =>
             let K := fresh "Hkeep" in
             pose proof (others_keep c s0 eq_refl) as K;
             rewrite E in K; cbn [snd] in K; clear E
         end.
  all: try match goal with
         | E : run handle (createFolder _ _) ?s0 = _,
           K : folders_of ?s0 = folders_of ?s1,
           Hi : identified folders_of ?s1 |- _ =>
             let Hadds := fresh "Hadds" in
             pose proof createFolder_adds as Hadds;
             specialize (Hadds _ _ _ _ _ (eq_ind_r (fun l => forall g, In g l -> file_id g <> "")
                                            Hi K) E);
             clear E
         end.
  all: try match goal with
         | Hadds : _ \/ _ |- _ =>
             destruct Hadds
               as [(g & Hg & Hname & Ho & Hnone & Hsame)
                  |(Habsent & id & before & after & Hid & Ho & Hone & Hold & Hnew)]
         end.
  all: repeat match goal with
         | K : folders_of _ = folders_of _ |- _ => rewrite K in *; clear K
         end.
  all: unfold creates in *.
  all: try (left; split; [views; try reflexivity; assumption | reflexivity || assumption]).
  all: right; split; [assumption|]; exists id, before, after;
       repeat split; try assumption; views; rewrite ?Nat.add_0_r; assumption.
Qed.

(** X14. The handler keeps the drive in order: from a drive whose folders
    all have an id and distinct names, a run of the handler leads to such
    a drive again, whatever else happens in the run.  It removes no
    folder and adds at most one. *)
Theorem upload_keeps_unique :
  forall (req : Request) (s : St) o s' tr,
    identified folders_of s -> unique_names folders_of s ->
    run handle
      (upload DRIVE_ID BUGZILLA_API_KEY JSON_stringify JSON_parse new_URL utf16_length req) s
    = (o, s', tr) ->
    identified folders_of s' /\ unique_names folders_of s'
    /\ (forall g, In g (folders_of s) -> In g (folders_of s'))
    /\ (Datatypes.length (folders_of s') <= S (Datatypes.length (folders_of s)))%nat.
Proof.
  intros req s o s' tr Hids Huniq H.
  pose proof upload_adds as Hadds. specialize (Hadds req s o s' tr Hids H).
  destruct Hadds
    as [(_ & Hsame)|(Habsent & id & before & after & Hid & _ & Hold & Hnew)].
  - unfold identified, unique_names. rewrite Hsame. repeat split; auto.
  - split; [eapply identified_add; eassumption|].
    split; [eapply unique_add; eassumption|].
    split.
    + intros g Hg. rewrite Hold in Hg. rewrite Hnew.
      apply in_app_or in Hg. apply in_or_app. destruct Hg; [now left|right; now right].
    + rewrite Hold, Hnew, !length_app. cbn. lia.
Qed.

(** X15. Two uploads for the same bug, one after the other, create at most
    one folder between them: once a run has created the folder of a bug,
    the next run finds it. *)
Theorem upload_twice_one_folder :
  forall (req1 req2 : Request) (s : St) o1 s1 t1 o2 s2 t2,
    bugid req1 = bugid req2 ->
    identified folders_of s ->
    run handle
      (upload DRIVE_ID BUGZILLA_API_KEY JSON_stringify JSON_parse new_URL utf16_length req1) s
    = (o1, s1, t1) ->
    run handle
      (upload DRIVE_ID BUGZILLA_API_KEY JSON_stringify JSON_parse new_URL utf16_length req2) s1
    = (o2, s2, t2) ->
    (Datatypes.length (creates t1) + Datatypes.length (creates t2) <= 1)%nat.
Proof.
  intros req1 req2 s o1 s1 t1 o2 s2 t2 Hbug Hids H1 H2.
  pose proof upload_adds as Hfirst. specialize (Hfirst req1 s o1 s1 t1 Hids H1).
  destruct Hfirst
    as [(Hnone & Hsame)|(Habsent & id & before & after & Hid & Hone & Hold & Hnew)].
  - assert (Hids1 : identified folders_of s1)
      by (unfold identified; now rewrite Hsame).
    pose proof upload_adds as Hsecond. specialize (Hsecond req2 s1 o2 s2 t2 Hids1 H2).
    rewrite Hnone. cbn.
    destruct Hsecond as [(Hnone2 & _)|(_ & _ & _ & _ & _ & Hone2 & _)].
    + rewrite Hnone2. cbn. lia.
    + rewrite Hone2. lia.
  - assert (Hids1 : identified folders_of s1) by (eapply identified_add; eassumption).
    pose proof upload_adds as Hsecond. specialize (Hsecond req2 s1 o2 s2 t2 Hids1 H2).
    destruct Hsecond as [(Hnone2 & _)|(Habsent2 & _)].
    + rewrite Hone, Hnone2. cbn. lia.
    + exfalso. apply (Habsent2 (mkFile id (tpl (bugid req1)))).
      * rewrite Hnew. apply in_or_app. right. now left.
      * cbn. now rewrite Hbug.
Qed.
End OneFolder.

(** ** Start-up *)


End Properties.

(** * The reference environment *)

(** ** The reference Drive obeys the laws the resolver relies on *)

Lemma world_list_answers :
  forall params w, fst (world_handle (drive_files_list params) w) = Normal (w_folders w).
Proof. reflexivity. Qed.

Lemma world_list_keeps :
  forall params w, w_folders (snd (world_handle (drive_files_list params) w)) = w_folders w.
Proof. reflexivity. Qed.

Lemma world_log_keeps :
  forall msg w, w_folders (snd (world_handle (console_log msg) w)) = w_folders w.
Proof. reflexivity. Qed.

Lemma world_create_adds :
  forall params w,
  exists id before after,
    id <> ""
    /\ fst (world_handle (drive_files_create params) w) = Normal id
    /\ w_folders w = (before ++ after)%list
    /\ w_folders (snd (world_handle (drive_files_create params) w))
       = (before ++ mkFile id (fm_name (cp_resource params)) :: after)%list.
Proof.
  intros params w.
  exists ("folder-" ++ show_nat (w_created w)), (w_folders w), [].
  repeat split.
  - discriminate.
  - now rewrite app_nil_r.
Qed.

(** ** Sample runs *)

Lemma upload_unknown_ticket_witness :
  let r := run world_handle (sample_upload unknown_request) sample_world in
  storage_calls (trace_of r) = []
  /\ outcome_of r
     = Returned (mkHttpResponse 200
                   "Failed to upload file: Bug number does not appear to exist").
Proof.
  intro r.
  apply (@upload_unknown_ticket sample_DRIVE_ID sample_KEY sample_stringify sample_parse
           sample_URL sample_length World world_handle unknown_request sample_world
           (outcome_of r) (state_of r) (trace_of r) eq_refl
           (bug_url "99999", probe_init, Normal (mkFetchResponse 404))).
  - vm_compute. left. reflexivity.
  - reflexivity.
  - reflexivity.
Defined.

Lemma upload_status_codes_witness :
  outcome_of (run world_handle (sample_upload empty_request) sample_world)
  = Returned (mkHttpResponse 400 "No file uploaded")
  /\ (exists body,
         outcome_of (run world_handle (sample_upload unknown_request) sample_world)
         = Returned (mkHttpResponse 200 body))
  /\ (exists body,
         outcome_of (run world_handle (sample_upload sample_request) mute_world)
         = Returned (mkHttpResponse 200 body))
  /\ outcome_of (run world_handle (sample_upload sample_request) refusing_world)
     = Returned (mkHttpResponse 500 "Error uploading file").
Proof.
  split; [|split; [|split]].
  - pose (r := run world_handle (sample_upload empty_request) sample_world).
    exact (proj1 (@upload_status_codes sample_DRIVE_ID sample_KEY sample_stringify
                    sample_parse sample_URL sample_length
                    World world_handle empty_request sample_world
                    (outcome_of r) (state_of r) (trace_of r) eq_refl) eq_refl).
  - pose (r := run world_handle (sample_upload unknown_request) sample_world).
    exact (proj1 (proj2 (@upload_status_codes sample_DRIVE_ID sample_KEY sample_stringify
                    sample_parse sample_URL sample_length
                    World world_handle unknown_request sample_world
                    (outcome_of r) (state_of r) (trace_of r) eq_refl)) eq_refl).
  - pose (r := run world_handle (sample_upload sample_request) mute_world).
    exact (proj1 (proj2 (proj2 (@upload_status_codes sample_DRIVE_ID sample_KEY
                    sample_stringify sample_parse sample_URL sample_length World world_handle
                    sample_request mute_world
                    (outcome_of r) (state_of r) (trace_of r) eq_refl))) eq_refl).
  - pose (r := run world_handle (sample_upload sample_request) refusing_world).
    exact (proj1 (proj2 (proj2 (proj2 (@upload_status_codes sample_DRIVE_ID sample_KEY
                    sample_stringify sample_parse sample_URL sample_length World world_handle
                    sample_request refusing_world
                    (outcome_of r) (state_of r) (trace_of r) eq_refl)))) eq_refl).
Defined.

(** A failed ticket check is answered with status 200, not 500. *)
Lemma unknown_ticket_status_200 :
  exists r w tr,
    run world_handle (sample_upload unknown_request) sample_world = (Returned r, w, tr)
    /\ unconfirmed tr = true
    /\ res_status r = 200
    /\ res_status r <> 500.
Proof.
  do 3 eexists. split; [vm_compute; reflexivity|].
  repeat split; [discriminate].
Qed.

Lemma createFolder_idempotent_witness :
  let r1 := run world_handle (createFolder sample_DRIVE_ID "12345") sample_world in
  let r2 := run world_handle (createFolder sample_DRIVE_ID "12345") (state_of r1) in
  identified w_folders sample_world
  /\ exists id,
      outcome_of r1 = Returned id /\ outcome_of r2 = Returned id
      /\ creates (trace_of r2) = []
      /\ w_folders (state_of r2) = w_folders (state_of r1).
Proof.
  intros r1 r2.
  assert (Hids : identified w_folders sample_world) by (intros g Hg; destruct Hg).
  split; [exact Hids|].
  exact (@createFolder_idempotent sample_DRIVE_ID World world_handle w_folders
           world_list_answers world_list_keeps world_log_keeps world_create_adds
           "12345" sample_world
           (outcome_of r1) (state_of r1) (trace_of r1)
           (outcome_of r2) (state_of r2) (trace_of r2)
           Hids eq_refl eq_refl).
Defined.

Lemma createFolder_resolves_witness :
  let r := run world_handle (createFolder sample_DRIVE_ID "12345") used_world in
  let fresh := run world_handle (createFolder sample_DRIVE_ID "12345") sample_world in
  (outcome_of r = Returned "1qRs" /\ creates (trace_of r) = [])
  /\ outcome_of fresh = Returned "folder-0".
Proof.
  intros r fresh. split.
  - destruct (@createFolder_resolves sample_DRIVE_ID World world_handle "12345" used_world
                (outcome_of r) (state_of r) (trace_of r) eq_refl)
      as (params & listed & Hlists & _ & _ & _ & Hfiles).
    assert (Hlisted : listed = Normal (w_folders used_world)).
    { vm_compute in Hlists. injection Hlists as _ <-. reflexivity. }
    apply (proj1 (Hfiles (w_folders used_world) Hlisted)
             [mkFile "1xYz" "12344"] (mkFile "1qRs" "12345") [mkFile "1tUv" "12345"]).
    + reflexivity.
    + reflexivity.
    + intros g [<-|[]]. discriminate.
    + discriminate.
  - destruct (@createFolder_resolves sample_DRIVE_ID World world_handle "12345" sample_world
                (outcome_of fresh) (state_of fresh) (trace_of fresh) eq_refl)
      as (params & listed & Hlists & _ & _ & _ & Hfiles).
    assert (Hlisted : listed = Normal []).
    { vm_compute in Hlists. injection Hlists as _ <-. reflexivity. }
    destruct (proj2 (Hfiles [] Hlisted)) as (created & Hcreates & Hid).
    + intros g [].
    + apply Hid. vm_compute in Hcreates. injection Hcreates as <-. reflexivity.
Defined.

Lemma createResumableUpload_response_witness :
  let refused := run world_handle
                   (createResumableUpload sample_DRIVE_ID sample_stringify sample_length
                      sample_metadata)
                   refusing_world in
  let granted := run world_handle
                   (createResumableUpload sample_DRIVE_ID sample_stringify sample_length
                      sample_metadata)
                   sample_world in
  outcome_of refused
  = Threw (Error "Failed to create resumable upload session: 403 Forbidden quota exceeded")
  /\ outcome_of granted = Returned (Some sample_session_url).
Proof.
  intros refused granted. split.
  - refine (proj2 (proj2
      (@createResumableUpload_response sample_DRIVE_ID sample_stringify sample_length
      World world_handle
         sample_metadata refusing_world
         (outcome_of refused) (state_of refused) (trace_of refused) eq_refl
         session_options (Text (sample_stringify sample_metadata)) refusal _)) eq_refl).
    vm_compute. left. reflexivity.
  - refine (proj1 (proj2
      (@createResumableUpload_response sample_DRIVE_ID sample_stringify sample_length
      World world_handle
         sample_metadata sample_world
         (outcome_of granted) (state_of granted) (trace_of granted) eq_refl
         session_options (Text (sample_stringify sample_metadata))
         (mkIncomingMessage 200 "OK" (Some sample_session_url) []) _)) eq_refl).
    vm_compute. left. reflexivity.
Defined.

Lemma uploadFile_response_witness :
  let rejected := run world_handle
                    (uploadFile sample_parse sample_URL (Some sample_session_url)
                       1024 "text/plain" (buffer sample_file))
                    rejecting_world in
  let accepted := run world_handle
                    (uploadFile sample_parse sample_URL (Some sample_session_url)
                       1024 "text/plain" (buffer sample_file))
                    sample_world in
  outcome_of rejected = Threw (Error "Failed to upload file: 403 Forbidden")
  /\ outcome_of accepted = Returned sample_descriptor.
Proof.
  intros rejected accepted. split.
  - refine (proj1
      (@uploadFile_response sample_parse sample_URL World world_handle
         (Some sample_session_url) 1024 "text/plain" (buffer sample_file) rejecting_world
         (outcome_of rejected) (state_of rejected) (trace_of rejected) eq_refl
         transfer_options (Bytes (buffer sample_file)) refusal _) eq_refl).
    vm_compute. left. reflexivity.
  - refine (proj2
      (@uploadFile_response sample_parse sample_URL World world_handle
         (Some sample_session_url) 1024 "text/plain" (buffer sample_file) sample_world
         (outcome_of accepted) (state_of accepted) (trace_of accepted) eq_refl
         transfer_options (Bytes (buffer sample_file)) sample_stored _)
      sample_descriptor eq_refl eq_refl).
    vm_compute. left. reflexivity.
Defined.

(** C7.  The code misses the claim at a transfer that is answered 403
    Forbidden with the body "quota exceeded".  [uploadFile] has read that
    body to its end, yet the error it fails with holds the status and
    not the body, where [createResumableUpload], given the same answer to
    its own request, puts status and body in its error. *)
Lemma uploadFile_error_omits_body :
  let transfer := run world_handle
                    (uploadFile sample_parse sample_URL (Some sample_session_url)
                       1024 "text/plain" (buffer sample_file))
                    rejecting_world in
  let session := run world_handle
                   (createResumableUpload sample_DRIVE_ID sample_stringify sample_length
                      sample_metadata)
                   refusing_world in
  requests (trace_of transfer)
  = [(transfer_options, Bytes (buffer sample_file), Normal refusal)]
  /\ requests (trace_of session)
     = [(session_options, Text (sample_stringify sample_metadata), Normal refusal)]
  /\ collect (chunks refusal) = "quota exceeded"
  /\ (exists e,
         outcome_of transfer = Threw e
         /\ exn_message e = "Failed to upload file: 403 Forbidden"
         /\ occurs_in "403" (exn_message e) = true
         /\ occurs_in "quota exceeded" (exn_message e) = false)
  /\ (exists e,
         outcome_of session = Threw e
         /\ exn_message e
            = "Failed to create resumable upload session: 403 Forbidden quota exceeded"
         /\ occurs_in "403" (exn_message e) = true
         /\ occurs_in "quota exceeded" (exn_message e) = true).
Proof.
  intros transfer session.
  split; [reflexivity|]. split; [reflexivity|]. split; [reflexivity|].
  split; eexists; (split; [reflexivity|]); repeat split.
Qed.

Lemma upload_refused_session_witness :
  let r := run world_handle (sample_upload sample_request) refusing_world in
  (forall x, In x (requests (trace_of r)) -> is_transfer x = false)
  /\ outcome_of r = Returned (mkHttpResponse 500 "Error uploading file").
Proof.
  intro r.
  apply (@upload_refused_session sample_DRIVE_ID sample_KEY sample_stringify sample_parse
           sample_URL sample_length World world_handle sample_request refusing_world
           (outcome_of r) (state_of r) (trace_of r) eq_refl
           (session_options, Text (sample_stringify sample_metadata), Normal refusal)).
  - vm_compute. left. reflexivity.
  - reflexivity.
  - reflexivity.
Defined.

Lemma createBugzillaComment_contract_witness :
  let c := run world_handle
             (createBugzillaComment sample_KEY sample_stringify (Some "12345")) mute_world in
  let r := run world_handle (sample_upload sample_request) mute_world in
  (exists url init a commented,
      fetches (trace_of c) = [(url, init, a)]
      /\ outcome_of c = Returned commented
      /\ (commented = true <-> exists response, a = Normal response /\ status response = 201))
  /\ outcome_of r
     = Returned (mkHttpResponse 200
                   ("File uploaded successfully." ++ LF ++ "<br>Failed to comment to bugzilla")).
Proof.
  intros c r.
  pose proof (@createBugzillaComment_contract sample_DRIVE_ID sample_KEY sample_stringify
                sample_parse sample_URL sample_length World world_handle) as [Hcall Hreq].
  split.
  - exact (Hcall (Some "12345") mute_world
             (outcome_of c) (state_of c) (trace_of c) eq_refl).
  - apply (Hreq sample_request mute_world (outcome_of r) (state_of r) (trace_of r) eq_refl
             (bug_url "12345" ++ "/comment", comment_init, Normal (mkFetchResponse 403))).
    + vm_compute. right. left. reflexivity.
    + reflexivity.
    + intros response Hresponse. injection Hresponse as <-. discriminate.
Defined.

Lemma upload_success_messages_witness :
  let r := run world_handle (sample_upload sample_request) sample_world in
  fi_body comment_init
  = Some (sample_stringify
            (JObj [("comment",
                    JStr "A log has been successfully uploaded to the team's storage")]))
  /\ outcome_of r
     = Returned (mkHttpResponse 200
                   ("File uploaded successfully." ++ LF ++ "<br>Added comment to bugzilla")).
Proof.
  intro r.
  apply (@upload_success_messages sample_DRIVE_ID sample_KEY sample_stringify sample_parse
           sample_URL sample_length World world_handle sample_request sample_world
           (outcome_of r) (state_of r) (trace_of r) eq_refl
           (bug_url "12345" ++ "/comment", comment_init, Normal (mkFetchResponse 201))
           (mkFetchResponse 201)).
  - vm_compute. right. left. reflexivity.
  - reflexivity.
  - reflexivity.
  - reflexivity.
Defined.

Lemma upload_discards_descriptor_witness :
  let r := run world_handle (sample_upload sample_request) sample_world in
  outcome_of r
  = Returned (mkHttpResponse 200
                ("File uploaded successfully." ++ LF ++ "<br>Added comment to bugzilla"))
  \/ outcome_of r
     = Returned (mkHttpResponse 200
                   ("File uploaded successfully." ++ LF ++ "<br>Failed to comment to bugzilla")).
Proof.
  intro r.
  apply (@upload_discards_descriptor sample_DRIVE_ID sample_KEY sample_stringify sample_parse
           sample_URL sample_length World world_handle sample_request sample_world
           (outcome_of r) (state_of r) (trace_of r) eq_refl
           (transfer_options, Bytes (buffer sample_file), Normal sample_stored)
           sample_stored sample_descriptor).
  - vm_compute. right. left. reflexivity.
  - reflexivity.
  - reflexivity.
  - reflexivity.
  - reflexivity.
Defined.

(** The scenario of the specification: bug 12345 exists and [report.log]
    (1024 bytes, text/plain) is uploaded twice.  The first upload creates
    the folder 12345, the second one finds and reuses it; both end with the
    comment posted. *)
Example report_log_uploaded_twice :
  let first := run world_handle (sample_upload sample_request) sample_world in
  let second := run world_handle (sample_upload sample_request) (state_of first) in
  outcome_of first
  = Returned (mkHttpResponse 200
                ("File uploaded successfully." ++ LF ++ "<br>Added comment to bugzilla"))
  /\ outcome_of second = outcome_of first
  /\ map fst (creates (trace_of first)) = [create_params sample_DRIVE_ID "12345"]
  /\ creates (trace_of second) = []
  /\ w_folders (state_of second) = [mkFile "folder-0" "12345"].
Proof. vm_compute. repeat split. Qed.

(** ** More sample runs *)

Lemma world_others_keep :
  forall c w, is_create c = false -> w_folders (snd (world_handle c w)) = w_folders w.
Proof.
  intros c w Hc. destruct c; try reflexivity; try discriminate Hc.
  cbn. now destruct (ro_method options =? "POST")%string.
Qed.

Lemma tidy_identified : identified w_folders tidy_world.
Proof. intros g [<-|[]]. discriminate. Qed.

Lemma tidy_unique : unique_names w_folders tidy_world.
Proof. repeat constructor. intros []. Qed.

Lemma getFolderId_lookup_witness :
  let absent := run world_handle (getFolderId sample_DRIVE_ID "12345") sample_world in
  let present := run world_handle (getFolderId sample_DRIVE_ID "12345") used_world in
  outcome_of absent = Returned ""
  /\ exists id,
      outcome_of present = Returned id /\ id <> ""
      /\ In (mkFile id "12345") (w_folders used_world).
Proof.
  intros absent present. split.
  - destruct (@getFolderId_lookup sample_DRIVE_ID World world_handle "12345" sample_world
                (outcome_of absent) (state_of absent) (trace_of absent) eq_refl)
      as (listed & Hlists & _ & _ & _ & _ & Hfiles).
    assert (Hlisted : listed = Normal []).
    { vm_compute in Hlists. injection Hlists as <-. reflexivity. }
    destruct (Hfiles [] Hlisted (fun g Hg => match Hg with end)) as (id & Ho & Hiff & _).
    rewrite Ho. f_equal. apply Hiff. intros g [].
  - destruct (@getFolderId_lookup sample_DRIVE_ID World world_handle "12345" used_world
                (outcome_of present) (state_of present) (trace_of present) eq_refl)
      as (listed & Hlists & _ & _ & _ & _ & Hfiles).
    assert (Hlisted : listed = Normal (w_folders used_world)).
    { vm_compute in Hlists. injection Hlists as <-. reflexivity. }
    destruct (Hfiles (w_folders used_world) Hlisted) as (id & Ho & Hiff & Hin).
    + intros g [<-|[<-|[<-|[]]]]; discriminate.
    + assert (Hid : id <> "").
      { intros Hempty. apply (proj1 Hiff Hempty (mkFile "1qRs" "12345")).
        * right. left. reflexivity.
        * reflexivity. }
      exists id. split; [exact Ho|]. split; [exact Hid|]. exact (Hin Hid).
Defined.

Lemma createFolder_failures_witness :
  let r := run down_handle (createFolder sample_DRIVE_ID "12345") sample_world in
  outcome_of r = Threw (mkExn "GaxiosError" "backend error")
  /\ creates (trace_of r) = [].
Proof.
  intro r.
  apply (proj1 (@createFolder_failures sample_DRIVE_ID World down_handle "12345" sample_world
                  (outcome_of r) (state_of r) (trace_of r) eq_refl)
           (list_params sample_DRIVE_ID) (mkExn "GaxiosError" "backend error")).
  vm_compute. left. reflexivity.
Defined.

Lemma checkBugIdExists_verdict_witness :
  let r := run world_handle (checkBugIdExists sample_KEY (Some "99999")) sample_world in
  exists a verdict,
    trace_of r = [Ev (fetch (bug_url "99999") probe_init) a]
    /\ outcome_of r = Returned verdict
    /\ (error verdict = false
        <-> exists response, a = Normal response /\ 200 <= status response <= 299)
    /\ (error verdict = true ->
        message verdict
        = Some match a with
               | Normal _ => "Bug number does not appear to exist"
               | Abrupt _ => "Unknown"
               end).
Proof.
  intro r.
  exact (@checkBugIdExists_verdict sample_KEY World world_handle (Some "99999") sample_world
           (outcome_of r) (state_of r) (trace_of r) eq_refl).
Defined.

Lemma createResumableUpload_request_witness :
  let r := run locked_handle
             (createResumableUpload sample_DRIVE_ID sample_stringify sample_length
                sample_metadata)
             sample_world in
  outcome_of r = Threw (mkExn "Error" "invalid_grant").
Proof.
  intro r.
  apply (proj1 (@createResumableUpload_request sample_DRIVE_ID sample_stringify sample_length World
                  locked_handle sample_metadata sample_world
                  (outcome_of r) (state_of r) (trace_of r) eq_refl)).
  vm_compute. left. reflexivity.
Defined.

Lemma uploadFile_request_witness :
  let r := run world_handle
             (uploadFile sample_parse sample_URL None 1024 "text/plain" (buffer sample_file))
             sample_world in
  outcome_of r = Threw (mkExn "TypeError" "Invalid URL") /\ trace_of r = [].
Proof.
  intro r.
  exact (proj1 (@uploadFile_request sample_parse sample_URL World world_handle
                  None 1024 "text/plain" (buffer sample_file) sample_world
                  (outcome_of r) (state_of r) (trace_of r) eq_refl)
           (mkExn "TypeError" "Invalid URL") eq_refl).
Defined.

Lemma uploadFile_garbled_answer_witness :
  let r := run world_handle
             (uploadFile sample_parse sample_URL (Some sample_session_url)
                1024 "text/plain" (buffer sample_file))
             garbling_world in
  outcome_of r = Crashed (mkExn "SyntaxError" "Unexpected token in JSON").
Proof.
  intro r.
  apply (@uploadFile_garbled_answer sample_parse sample_URL World world_handle
           (Some sample_session_url) 1024 "text/plain" (buffer sample_file) garbling_world
           (outcome_of r) (state_of r) (trace_of r) eq_refl
           (transfer_options, Bytes (buffer sample_file),
            Normal (mkIncomingMessage 200 "OK" None ["<html>"; "</html>"]))
           (mkIncomingMessage 200 "OK" None ["<html>"; "</html>"])).
  - vm_compute. left. reflexivity.
  - reflexivity.
  - reflexivity.
  - reflexivity.
Defined.

Lemma upload_always_answers_witness :
  let r := run world_handle (sample_upload sample_request) garbling_world in
  outcome_of r = Crashed (mkExn "SyntaxError" "Unexpected token in JSON").
Proof.
  intro r.
  apply (proj2 (@upload_always_answers sample_DRIVE_ID sample_KEY sample_stringify
                  sample_parse sample_URL sample_length
                  World world_handle sample_request garbling_world
                  (outcome_of r) (state_of r) (trace_of r) eq_refl)).
  exists (transfer_options, Bytes (buffer sample_file),
          Normal (mkIncomingMessage 200 "OK" None ["<html>"; "</html>"])),
         (mkIncomingMessage 200 "OK" None ["<html>"; "</html>"]).
  split; [vm_compute; right; left; reflexivity|].
  repeat split.
Defined.

Lemma upload_comment_after_store_witness :
  let r := run world_handle (sample_upload sample_request) sample_world in
  uploaded sample_parse (trace_of r) = true
  /\ fatal sample_URL (trace_of r) = false.
Proof.
  intro r.
  destruct (@upload_comment_after_store sample_DRIVE_ID sample_KEY sample_stringify
              sample_parse sample_URL sample_length World world_handle sample_request sample_world
              (outcome_of r) (state_of r) (trace_of r) eq_refl
              (bug_url "12345" ++ "/comment", comment_init, Normal (mkFetchResponse 201)))
    as (Hup & Hfatal & _).
  - vm_compute. right. left. reflexivity.
  - reflexivity.
  - now split.
Defined.

Lemma upload_calls_once_witness :
  let r := run world_handle (sample_upload sample_request) sample_world in
  (Datatypes.length (lists (trace_of r)) <= 1)%nat
  /\ (Datatypes.length (creates (trace_of r)) <= 1)%nat
  /\ (Datatypes.length (filter is_session (requests (trace_of r))) <= 1)%nat
  /\ (Datatypes.length (filter is_transfer (requests (trace_of r))) <= 1)%nat
  /\ (Datatypes.length (filter is_probe (fetches (trace_of r))) <= 1)%nat
  /\ (Datatypes.length (filter is_comment (fetches (trace_of r))) <= 1)%nat.
Proof.
  intro r.
  exact (@upload_calls_once sample_DRIVE_ID sample_KEY sample_stringify sample_parse
           sample_URL sample_length World world_handle sample_request sample_world
           (outcome_of r) (state_of r) (trace_of r) eq_refl).
Defined.

Lemma upload_session_metadata_witness :
  let r := run world_handle (sample_upload sample_request) sample_world in
  exists folder,
    resolved_folder "12345" (trace_of r) = Some folder
    /\ Text (sample_stringify sample_metadata)
       = Text (sample_stringify
                 (JObj [("name", JStr "report.log"); ("parents", JArr [JStr folder])])).
Proof.
  intro r.
  apply (@upload_session_metadata sample_DRIVE_ID sample_KEY sample_stringify sample_parse
           sample_URL sample_length World world_handle sample_request sample_world
           (outcome_of r) (state_of r) (trace_of r) eq_refl sample_file
           (session_options, Text (sample_stringify sample_metadata), w_session sample_world)).
  - reflexivity.
  - vm_compute. left. reflexivity.
  - reflexivity.
Defined.

Lemma upload_transfer_request_witness :
  let r := run world_handle (sample_upload sample_request) sample_world in
  exists session res parsedUrl,
    In session (requests (trace_of r)) /\ is_session session = true
    /\ snd session = Normal res /\ is_2xx (statusCode res) = true
    /\ sample_URL (tpl (headers_location res)) = Normal parsedUrl
    /\ (transfer_options, Bytes (buffer sample_file))
       = ({| ro_method := "PUT";
             ro_hostname := url_hostname parsedUrl;
             ro_path := url_pathname parsedUrl ++ url_search parsedUrl;
             ro_headers := [("Content-Length", JNum 1024);
                            ("Content-Type", JStr "text/plain")] |},
          Bytes (buffer sample_file)).
Proof.
  intro r.
  apply (@upload_transfer_request sample_DRIVE_ID sample_KEY sample_stringify sample_parse
           sample_URL sample_length World world_handle sample_request sample_world
           (outcome_of r) (state_of r) (trace_of r) eq_refl sample_file
           (transfer_options, Bytes (buffer sample_file), Normal sample_stored)).
  - reflexivity.
  - vm_compute. right. left. reflexivity.
  - reflexivity.
Defined.

Lemma upload_failure_logged_witness :
  let r := run world_handle (sample_upload sample_request) refusing_world in
  exists e,
    error_logs (trace_of r) = [("Error uploading file:", e)]
    /\ (forall e', In e' (rejections (trace_of r)) -> e' = e).
Proof.
  intro r.
  apply (@upload_failure_logged sample_DRIVE_ID sample_KEY sample_stringify sample_parse
           sample_URL sample_length World world_handle sample_request refusing_world
           (outcome_of r) (state_of r) (trace_of r) eq_refl
           (mkHttpResponse 500 "Error uploading file")).
  - reflexivity.
  - reflexivity.
Defined.

Lemma createFolder_keeps_unique_witness :
  let r := run world_handle (createFolder sample_DRIVE_ID "12345") tidy_world in
  identified w_folders (state_of r) /\ unique_names w_folders (state_of r)
  /\ (forall g, In g (w_folders tidy_world) -> In g (w_folders (state_of r)))
  /\ exists g,
      In g (w_folders (state_of r)) /\ file_name g = "12345"
      /\ outcome_of r = Returned (file_id g).
Proof.
  intro r.
  exact (@createFolder_keeps_unique sample_DRIVE_ID World world_handle w_folders
           world_list_answers world_others_keep world_create_adds
           "12345" tidy_world (outcome_of r) (state_of r) (trace_of r)
           tidy_identified tidy_unique eq_refl).
Defined.

Lemma upload_keeps_unique_witness :
  let r := run world_handle (sample_upload sample_request) tidy_world in
  identified w_folders (state_of r) /\ unique_names w_folders (state_of r)
  /\ (forall g, In g (w_folders tidy_world) -> In g (w_folders (state_of r)))
  /\ (Datatypes.length (w_folders (state_of r))
      <= S (Datatypes.length (w_folders tidy_world)))%nat.
Proof.
  intro r.
  exact (@upload_keeps_unique sample_DRIVE_ID sample_KEY sample_stringify sample_parse
           sample_URL sample_length World world_handle w_folders
           world_list_answers world_others_keep world_create_adds
           sample_request tidy_world (outcome_of r) (state_of r) (trace_of r)
           tidy_identified tidy_unique eq_refl).
Defined.

Lemma upload_twice_one_folder_witness :
  let r1 := run world_handle (sample_upload sample_request) tidy_world in
  let r2 := run world_handle (sample_upload sample_request) (state_of r1) in
  (Datatypes.length (creates (trace_of r1)) + Datatypes.length (creates (trace_of r2))
   <= 1)%nat.
Proof.
  intros r1 r2.
  exact (@upload_twice_one_folder sample_DRIVE_ID sample_KEY sample_stringify sample_parse
           sample_URL sample_length World world_handle w_folders
           world_list_answers world_others_keep world_create_adds
           sample_request sample_request tidy_world
           (outcome_of r1) (state_of r1) (trace_of r1)
           (outcome_of r2) (state_of r2) (trace_of r2)
           eq_refl tidy_identified eq_refl eq_refl).
Defined.

